(** * The statsd collector of k6 ([stats/statsd/common/collector.go])

    A shallow embedding of the buffered metrics forwarder: samples are
    appended to an in-memory buffer by [Collect], drained by [pushMetrics],
    encoded per metric kind by [dispatch] and handed to the statsd client.

    The statsd client, the logger and the clock are outside the file; their
    observable interaction with the collector is recorded in a chronological
    trace of events, and the client's answers are supplied by the
    environment ([Externals]). *)

From Stdlib Require Import ZArith Floats.PrimFloat Floats.FloatOps Floats.SpecFloat.
From stdpp Require Import gmap strings list.

Local Open Scope string_scope.
Local Open Scope list_scope.
Local Open Scope Z_scope.

(** ** Go values *)

(** A Go [error]: [None] is [nil], [Some msg] an error whose [Error()] text
    is [msg]. *)
Definition error : Type := option string.

(** The double quote character (code 34), which the address error message
    puts around the received address. *)
Definition dquote : string := String (Ascii.ascii_of_nat 34) EmptyString.

(** [float64] to integer: the fraction is discarded (truncation towards
    zero).  [None] for NaN and the infinities. *)
Definition float_trunc (f : float) : option Z :=
  match Prim2SF f with
  | S754_zero _ => Some 0
  | S754_finite s m e =>
      let mag := match e with
                 | Z0 => Zpos m
                 | Zpos p => Z.shiftl (Zpos m) (Zpos p)
                 | Zneg p => Z.shiftr (Zpos m) (Zpos p)
                 end in
      Some (if s then - mag else mag)
  | S754_infinity _ | S754_nan => None
  end.

Definition int64_min : Z := - 2 ^ 63.
Definition int64_max : Z := 2 ^ 63 - 1.

(** ** Package [stats] *)
Module stats.

(** Modelled from the spec: the metric kinds of package [stats], declared
    outside this file ([type MetricType int] with the four constants in
    this order).  Being an integer type, a [MetricType] can hold values
    that are none of the four. *)
Definition MetricType : Type := Z.
Definition Counter : MetricType := 0.
Definition Gauge : MetricType := 1.
Definition Trend : MetricType := 2.
Definition Rate : MetricType := 3.

End stats.

(** ** Package [statsd] (the network client) *)
Module statsd.

(** The part of [statsd.Client] the collector touches: the namespace
    prefix; [addr] and [bufferLength] remember what it was built from. *)
Record Client : Type := mkClient {
  addr : string;
  bufferLength : Z;
  Namespace : string
}.

(** The methods of the client the collector calls, with their arguments. *)
Inductive call : Type :=
| Count (name : string) (value : Z) (tags : list string) (rate : float)
| TimeInMilliseconds (name : string) (value : float) (tags : list string) (rate : float)
| Gauge (name : string) (value : float) (tags : list string) (rate : float)
| Flush
| Close.

End statsd.

(** ** The collector's data *)

(** Modelled from the spec: the buffered [Sample] of this package (declared
    in a sibling file): metric name, value, kind and tag map.  [Type_] is
    the field [Type]. *)
Record Sample : Type := mkSample {
  Metric : string;
  Value : float;
  Type_ : stats.MetricType;
  Tags : gmap string string
}.

(** Modelled from the spec: the [Config] of this package, read through
    [Addr.String], [BufferSize.Int64], [Namespace.String] and
    [PushInterval.Duration] (nanoseconds). *)
Record Config : Type := mkConfig {
  Addr : string;
  BufferSize : Z;
  Namespace : string;
  PushInterval : Z
}.

(** The [Collector] struct.  Its [Logger] is not a field here: what it is
    given goes to the trace.  Its [bufferLock] is what makes the append of
    [Collect] and the swap of [pushMetrics] steps that do not overlap; the
    model runs them one after the other.  [Type'] is the field [Type], and
    [Config_] the field [Config]. *)
Record Collector : Type := mkCollector {
  Client : option statsd.Client;
  Config_ : Config;
  Type' : string;
  FilterTags : option (gmap string string -> list string);
  startTime : Z;
  buffer : list Sample
}.

(** ** Observable events *)

Inductive level : Type := DebugLevel | WarnLevel | ErrorLevel.

Inductive field : Type :=
| FInt (n : Z)
| FError (e : string).

Inductive event : Type :=
| NewBufferedCall (addr : string) (buflen : Z)
| ClientCall (c : statsd.call) (reply : error)
| LogEntry (lvl : level) (fields : list (string * field)) (msg : string).

Record World : Type := mkWorld {
  col : Collector;
  trace : list event
}.

(** The collaborators of the collector that live outside this file. *)
Class Externals : Type := {
  (** [stats.Sample] and [stats.SampleContainer] with its [GetSamples]. *)
  stats_Sample : Type;
  SampleContainer : Type;
  GetSamples : SampleContainer -> list stats_Sample;
  (** [generateDataPoint], of this package, declared in a sibling file. *)
  generateDataPoint : stats_Sample -> Sample;
  (** [statsd.NewBuffered]: a client or an error. *)
  NewBuffered : string -> Z -> statsd.Client + string;
  (** What the client answers to a call, given everything that happened
      before it. *)
  client_reply : list event -> statsd.call -> error;
  (** The result of [int64(f)] when [f] is not representable: the language
      leaves it to the implementation. *)
  int64_unrepresentable : float -> Z
}.

(** ** A state monad over the world *)

Definition M (A : Type) : Type := World -> A * World.

Definition ret {A : Type} (a : A) : M A := fun w => (a, w).

Definition bind {A B : Type} (m : M A) (k : A -> M B) : M B :=
  fun w => let '(a, w') := m w in k a w'.

Notation "x <- m ;; k" := (bind m (fun x => k))
  (at level 100, m at next level, right associativity).
Notation "m ;;; k" := (bind m (fun _ => k))
  (at level 100, right associativity).

Definition get_col : M Collector := fun w => (col w, w).

Definition put_col (c : Collector) : M unit :=
  fun w => (tt, {| col := c; trace := trace w |}).

Definition emit_event (ev : event) : M unit :=
  fun w => (tt, {| col := col w; trace := trace w ++ [ev] |}).

Definition log (lvl : level) (fields : list (string * field)) (msg : string) : M unit :=
  emit_event (LogEntry lvl fields msg).

Definition set_Client (cl : option statsd.Client) : M unit :=
  c <- get_col ;;
  put_col {| Client := cl; Config_ := Config_ c; Type' := Type' c;
             FilterTags := FilterTags c; startTime := startTime c;
             buffer := buffer c |}.

Definition set_startTime (t : Z) : M unit :=
  c <- get_col ;;
  put_col {| Client := Client c; Config_ := Config_ c; Type' := Type' c;
             FilterTags := FilterTags c; startTime := t;
             buffer := buffer c |}.

Definition set_buffer (b : list Sample) : M unit :=
  c <- get_col ;;
  put_col {| Client := Client c; Config_ := Config_ c; Type' := Type' c;
             FilterTags := FilterTags c; startTime := startTime c;
             buffer := b |}.

(** The client calls of a trace, in order. *)
Definition client_calls (tr : list event) : list statsd.call :=
  omap (fun ev => match ev with ClientCall c _ => Some c | _ => None end) tr.

(** ** The collector's operations *)

Section collector.

Context `{ext : Externals}.

(** [int64(f)] for a [float64] [f]. *)
Definition int64 (f : float) : Z :=
  match float_trunc f with
  | Some z =>
      if (int64_min <=? z) && (z <=? int64_max) then z
      else int64_unrepresentable f
  | None => int64_unrepresentable f
  end.

(** One call of a method of [c.Client]: the environment answers, and the
    call and its answer are appended to the trace. *)
Definition client_call (c : statsd.call) : M error :=
  fun w =>
    let r := client_reply (trace w) c in
    (r, {| col := col w; trace := trace w ++ [ClientCall c r] |}).

Definition checkToString (check : string) (value : float) : string :=
  let label := if PrimFloat.eqb value 0%float then "fail" else "pass" in
  (("check." +:+ check) +:+ ".") +:+ label.

Definition dispatch (entry : Sample) : M unit :=
  c <- get_col ;;
  let tagList :=
    match FilterTags c with
    | Some filter => filter (Tags entry)
    | None => []
    end in
  err <-
    (if Type_ entry =? stats.Counter then
       client_call (statsd.Count (Metric entry) (int64 (Value entry)) tagList 1%float)
     else if Type_ entry =? stats.Trend then
       client_call (statsd.TimeInMilliseconds (Metric entry) (Value entry) tagList 1%float)
     else if Type_ entry =? stats.Gauge then
       client_call (statsd.Gauge (Metric entry) (Value entry) tagList 1%float)
     else if Type_ entry =? stats.Rate then
       let check := default "" (Tags entry !! "check") in
       if negb (String.eqb check "") then
         client_call (statsd.Count (checkToString check (Value entry)) 1%Z tagList 1%float)
       else
         client_call (statsd.Count (Metric entry) (int64 (Value entry)) tagList 1%float)
     else ret None) ;;
  match err with
  | Some e =>
      log WarnLevel []
        ("Error while sending metric " +:+ Metric entry +:+ ": " +:+ e)
  | None => ret tt
  end.

Fixpoint commit (data : list Sample) : M error :=
  match data with
  | [] => client_call statsd.Flush
  | entry :: rest => dispatch entry ;;; commit rest
  end.

(** [pushMetrics] returns nothing in the source; the model returns the
    batch it took out of the buffer and handed to [commit] (the local
    [buffer]), and the empty list when it returned early. *)
Definition pushMetrics : M (list Sample) :=
  c <- get_col ;;
  if (length (buffer c) =? 0)%nat then ret []
  else
    let buffer_ := buffer c in
    set_buffer [] ;;;
    log DebugLevel [("samples", FInt (Z.of_nat (length buffer_)))]
      (Type' c +:+ ": Pushing metrics to server") ;;;
    err <- commit buffer_ ;;
    match err with
    | Some e =>
        log ErrorLevel [("error", FError e)]
          (Type' c +:+ ": Couldn't commit a batch")
    | None => ret tt
    end ;;;
    ret buffer_.

Definition finish : M unit :=
  c <- get_col ;;
  err <- client_call statsd.Close ;;
  match err with
  | Some e =>
      log WarnLevel [] (Type' c +:+ ": Error closing the client, " +:+ e)
  | None => ret tt
  end.

(** The two nested [for ... range] loops of [Collect], appending one data
    point at a time. *)
Definition pointSamples_of (containers : list SampleContainer) : list Sample :=
  foldl
    (fun acc container =>
       foldl (fun acc sample => acc ++ [generateDataPoint sample])
         acc (GetSamples container))
    [] containers.

Definition Collect (containers : list SampleContainer) : M unit :=
  let pointSamples := pointSamples_of containers in
  if (0 <? length pointSamples)%nat then
    c <- get_col ;;
    set_buffer (buffer c ++ pointSamples)
  else ret tt.

(** [int(c.Config.BufferSize.Int64)] is the identity where [int] has 64
    bits.  [NewBuffered] returns a client or an error; with the error comes
    a nil client, which the assignment stores in [c.Client]. *)
Definition Init : M error :=
  c <- get_col ;;
  let address := Addr (Config_ c) in
  if String.eqb address "" then
    let err :=
      Type' c +:+ ": connection string is invalid. Received: "
        +:+ dquote +:+ address +:+ dquote in
    log ErrorLevel [] err ;;;
    ret (Some err)
  else
    emit_event (NewBufferedCall (Addr (Config_ c)) (BufferSize (Config_ c))) ;;;
    match NewBuffered (Addr (Config_ c)) (BufferSize (Config_ c)) with
    | inr e =>
        set_Client None ;;;
        log ErrorLevel [] ("Couldn't make buffered client, " +:+ e) ;;;
        ret (Some e)
    | inl cl =>
        set_Client (Some cl) ;;;
        let namespace := Namespace (Config_ c) in
        (if negb (String.eqb namespace "") then
           set_Client
             (Some {| statsd.addr := statsd.addr cl;
                      statsd.bufferLength := statsd.bufferLength cl;
                      statsd.Namespace := namespace |})
         else ret tt) ;;;
        ret None
    end.

Definition Link : M string :=
  c <- get_col ;;
  ret (Addr (Config_ c)).

(** What wakes the [select] of [Run]. *)
Inductive wake : Type := Tick | Done.

(** What happens until [Run] returns, in the order the buffer lock
    serialises it: a producer's [Collect] stands where it takes the lock,
    and a wake-up of the loop where the [pushMetrics] it triggers takes the
    lock to swap the buffer out. *)
Inductive sched : Type :=
| Producer (containers : list SampleContainer)
| Wake (k : wake).

Inductive outcome : Type :=
| Returned
| Waiting
| Panicked.

(** What the rest of the schedule does once the last [pushMetrics] has
    swapped the buffer out: [pushMetrics] has released the lock, so
    producers still [Collect] while [commit] and [finish] are at work; the
    loop has left its [select], so no wake-up is served any more.  A
    [Collect] adds no event and neither [commit] nor [finish] reads the
    buffer, so it does not matter where between the swap and the return
    these [Collect]s stand. *)
Fixpoint late_collects (s : list sched) : M unit :=
  match s with
  | [] => ret tt
  | Producer containers :: s' => Collect containers ;;; late_collects s'
  | Wake _ :: s' => late_collects s'
  end.

(** The [for { select { ... } }] of [Run] over a schedule; [Waiting] when
    the schedule ends with the loop still blocked in [select].  A [Collect]
    that arrives while the [commit] of a tick is at work has the effect of
    one that arrives after it, which is where the schedule has it. *)
Fixpoint Run_loop (s : list sched) : M outcome :=
  match s with
  | [] => ret Waiting
  | Producer containers :: s' => Collect containers ;;; Run_loop s'
  | Wake Tick :: s' => pushMetrics ;;; Run_loop s'
  | Wake Done :: s' =>
      pushMetrics ;;; late_collects s' ;;; finish ;;; ret Returned
  end.

(** [time.NewTicker] panics on a duration that is not positive; [now] is
    what [time.Now()] returns. *)
Definition Run (now : Z) (s : list sched) : M outcome :=
  c <- get_col ;;
  log DebugLevel [] (Type' c +:+ ": Running!") ;;;
  if PushInterval (Config_ c) <=? 0 then ret Panicked
  else
    set_startTime now ;;;
    Run_loop s.

End collector.

(** ** Vocabulary of the statements *)

Section vocabulary.

Context `{ext : Externals}.

(** The events an operation appended: the part of the trace of [w'] after
    the trace of [w]. *)
Definition appended (w w' : World) : list event :=
  drop (length (trace w)) (trace w').

(** The tag list [dispatch] passes to the client for [entry]. *)
Definition tagList_of (c : Collector) (entry : Sample) : list string :=
  match FilterTags c with
  | Some filter => filter (Tags entry)
  | None => []
  end.

(** The call the kind switch of [dispatch] selects for [entry], if any. *)
Definition emission (c : Collector) (entry : Sample) : option statsd.call :=
  let tagList := tagList_of c entry in
  if Type_ entry =? stats.Counter then
    Some (statsd.Count (Metric entry) (int64 (Value entry)) tagList 1%float)
  else if Type_ entry =? stats.Trend then
    Some (statsd.TimeInMilliseconds (Metric entry) (Value entry) tagList 1%float)
  else if Type_ entry =? stats.Gauge then
    Some (statsd.Gauge (Metric entry) (Value entry) tagList 1%float)
  else if Type_ entry =? stats.Rate then
    let check := default "" (Tags entry !! "check") in
    if negb (String.eqb check "") then
      Some (statsd.Count (checkToString check (Value entry)) 1%Z tagList 1%float)
    else
      Some (statsd.Count (Metric entry) (int64 (Value entry)) tagList 1%float)
  else None.

(** What [dispatch] appends to the trace: the selected call with the
    client's answer, and a warning when the answer is an error. *)
Definition dispatch_events (tr : list event) (c : Collector) (entry : Sample)
  : list event :=
  match emission c entry with
  | None => []
  | Some cl =>
      let r := client_reply tr cl in
      ClientCall cl r ::
        match r with
        | Some e =>
            [LogEntry WarnLevel []
               ("Error while sending metric " +:+ Metric entry +:+ ": " +:+ e)]
        | None => []
        end
  end.

(** The calls a batch gives rise to, sample by sample. *)
Definition emissions (c : Collector) (data : list Sample) : list statsd.call :=
  omap (emission c) data.

(** The world after dispatching the samples of [data] one after the
    other. *)
Definition dispatched (data : list Sample) (w : World) : World :=
  foldl (fun w entry => snd (dispatch entry w)) w data.

(** The samples a [Collect] call appends, container by container. *)
Definition samples_of (containers : list SampleContainer) : list Sample :=
  flat_map (fun container => map generateDataPoint (GetSamples container))
    containers.

(** A sequence of calls on one collector: producers' [Collect]s and the
    loop's [pushMetrics], in the order the buffer lock serialises them. *)
Inductive op : Type :=
| DoCollect (containers : list SampleContainer)
| DoPushMetrics.

(** Runs the calls in order; the result lists the batch of every
    [pushMetrics], oldest first. *)
Fixpoint interleave (ops : list op) : M (list (list Sample)) :=
  match ops with
  | [] => ret []
  | DoCollect containers :: ops' => Collect containers ;;; interleave ops'
  | DoPushMetrics :: ops' =>
      batch <- pushMetrics ;;
      batches <- interleave ops' ;;
      ret (batch :: batches)
  end.

(** Every sample the [Collect]s of [ops] were given, in call order. *)
Definition ingested (ops : list op) : list Sample :=
  flat_map (fun o => match o with
                     | DoCollect containers => samples_of containers
                     | DoPushMetrics => []
                     end) ops.

(** The same world with another push interval in its configuration. *)
Definition with_PushInterval (p : Z) (w : World) : World :=
  let c := col w in
  {| col := {| Client := Client c;
               Config_ := {| Addr := Addr (Config_ c);
                             BufferSize := BufferSize (Config_ c);
                             Namespace := Namespace (Config_ c);
                             PushInterval := p |};
               Type' := Type' c; FilterTags := FilterTags c;
               startTime := startTime c; buffer := buffer c |};
     trace := trace w |}.

(** The same world with another buffer. *)
Definition with_buffer (b : list Sample) (w : World) : World :=
  let c := col w in
  {| col := {| Client := Client c; Config_ := Config_ c; Type' := Type' c;
               FilterTags := FilterTags c; startTime := startTime c;
               buffer := b |};
     trace := trace w |}.

End vocabulary.

(** The arguments of a call. *)
Definition call_name (c : statsd.call) : option string :=
  match c with
  | statsd.Count name _ _ _
  | statsd.TimeInMilliseconds name _ _ _
  | statsd.Gauge name _ _ _ => Some name
  | statsd.Flush | statsd.Close => None
  end.

Definition call_tags (c : statsd.call) : option (list string) :=
  match c with
  | statsd.Count _ _ tags _
  | statsd.TimeInMilliseconds _ _ tags _
  | statsd.Gauge _ _ tags _ => Some tags
  | statsd.Flush | statsd.Close => None
  end.

Definition is_emission (c : statsd.call) : bool :=
  match c with
  | statsd.Flush | statsd.Close => false
  | _ => true
  end.

(** The emission calls of a trace that the client answered with an error,
    and the warnings of a trace. *)
Definition failed_emissions (tr : list event) : nat :=
  length (List.filter (fun ev => match ev with
                                 | ClientCall c (Some _) => is_emission c
                                 | _ => false
                                 end) tr).

Definition warnings (tr : list event) : nat :=
  length (List.filter (fun ev => match ev with
                                 | LogEntry WarnLevel _ _ => true
                                 | _ => false
                                 end) tr).

Definition flushes (calls : list statsd.call) : nat :=
  length (List.filter (fun c => match c with statsd.Flush => true | _ => false end) calls).

Definition closes (calls : list statsd.call) : nat :=
  length (List.filter (fun c => match c with statsd.Close => true | _ => false end) calls).

(** [exact_int f z]: the value of the float [f] is exactly the integer
    [z]. *)
Definition exact_int (f : float) (z : Z) : bool :=
  match Prim2SF f with
  | S754_zero _ => z =? 0
  | S754_finite s m e =>
      let sign (v : Z) := if s then - v else v in
      match e with
      | Z0 => z =? sign (Zpos m)
      | Zpos p => z =? sign (Z.shiftl (Zpos m) (Zpos p))
      | Zneg p =>
          (Zpos m mod 2 ^ Zpos p =? 0) && (z =? sign (Z.shiftr (Zpos m) (Zpos p)))
      end
  | S754_infinity _ | S754_nan => false
  end.

(** ** Concrete inputs *)

(** An environment whose samples and containers are the collector's own,
    whose client construction fails only for the address [bad], and whose
    client answers as [reply] says. *)
Definition env (reply : list event -> statsd.call -> error) : Externals :=
  {| stats_Sample := Sample;
     SampleContainer := list Sample;
     GetSamples := fun container => container;
     generateDataPoint := fun sample => sample;
     NewBuffered := fun a n =>
       if String.eqb a "bad" then inr "dial failed"
       else inl (statsd.mkClient a n "");
     client_reply := reply;
     int64_unrepresentable := fun _ => int64_min |}.

Definition reply_ok : list event -> statsd.call -> error := fun _ _ => None.
Definition reply_fail : list event -> statsd.call -> error :=
  fun _ _ => Some "write: connection refused".

Definition sample_counter : Sample :=
  mkSample "http_reqs" 1.5%float stats.Counter ∅.
Definition sample_counter_int : Sample :=
  mkSample "iterations" 3%float stats.Counter ∅.
Definition sample_check_pass : Sample :=
  mkSample "checks" 1%float stats.Rate {[ "check" := "checkA" ]}.
Definition sample_check_fail : Sample :=
  mkSample "checks" 0%float stats.Rate {[ "check" := "checkA" ]}.
Definition sample_rate_plain : Sample :=
  mkSample "http_req_failed" 1%float stats.Rate {[ "method" := "GET" ]}.
Definition sample_unknown_kind : Sample :=
  mkSample "odd" 2%float 7 ∅.

Definition config0 : Config := mkConfig "localhost:8125" 20 "k6." 1000000000.
Definition config_no_addr : Config := mkConfig "" 20 "k6." 1000000000.

Definition collector0 : Collector := mkCollector None config0 "statsd" None 0 [].
Definition world0 : World := mkWorld collector0 [].
Definition world_no_addr : World :=
  mkWorld (mkCollector None config_no_addr "statsd" None 0 []) [].
Definition world_bad_addr : World :=
  mkWorld (mkCollector None (mkConfig "bad" 20 "" 1000000000) "statsd" None 0 []) [].

(** A schedule of [Run]: a producer's batch, a tick, another batch, then
    the cancellation. *)
Definition sched_before_tick : list (sched (ext := env reply_ok)) :=
  [Producer (ext := env reply_ok) [[sample_counter_int]]].
Definition batches_after_tick
  : list (list (SampleContainer (Externals := env reply_ok))) :=
  [[[sample_check_pass]]].
Definition world_after_tick : World :=
  snd (Run (ext := env reply_ok) 5 (sched_before_tick ++ [Wake Tick]) world0).

(** ** Vocabulary of the further properties *)

Section run_vocabulary.

Context `{ext : Externals}.

(** The samples the producers of a schedule hand to [Collect] before the
    loop of [Run] sees the cancellation. *)
Fixpoint ingested_until_done (s : list sched) : list Sample :=
  match s with
  | [] => []
  | Producer containers :: s' => samples_of containers ++ ingested_until_done s'
  | Wake Tick :: s' => ingested_until_done s'
  | Wake Done :: _ => []
  end.

(** Whether the cancellation is in the schedule. *)
Fixpoint cancelled (s : list sched) : bool :=
  match s with
  | [] => false
  | Wake Done :: _ => true
  | _ :: s' => cancelled s'
  end.

(** The samples the producers of a schedule hand to [Collect]. *)
Fixpoint producer_samples (s : list sched) : list Sample :=
  match s with
  | [] => []
  | Producer containers :: s' => samples_of containers ++ producer_samples s'
  | Wake _ :: s' => producer_samples s'
  end.

(** The samples handed to [Collect] after the cancellation's [pushMetrics]
    has swapped the buffer out. *)
Fixpoint collected_after_done (s : list sched) : list Sample :=
  match s with
  | [] => []
  | Wake Done :: s' => producer_samples s'
  | _ :: s' => collected_after_done s'
  end.

End run_vocabulary.

(** The error-level entries of a trace. *)
Definition error_logs (tr : list event) : nat :=
  length (List.filter (fun ev => match ev with
                                 | LogEntry ErrorLevel _ _ => true
                                 | _ => false
                                 end) tr).

(** Two collectors with the same configuration, type name and tag filter. *)
Definition same_settings (c c' : Collector) : Prop :=
  Config_ c = Config_ c' /\ Type' c = Type' c' /\ FilterTags c = FilterTags c'.

(** Further inputs. *)
Definition sample_trend : Sample :=
  mkSample "http_req_duration" 12.5%float stats.Trend ∅.
Definition sample_gauge : Sample :=
  mkSample "vus" 0.25%float stats.Gauge ∅.
Definition world_pending : World :=
  mkWorld (mkCollector None config0 "statsd" None 0
             [sample_counter; sample_check_pass]) [].

(** A Rate sample whose own metric name is the name derived from its check
    tag. *)
Definition sample_check_named_like_derived : Sample :=
  mkSample "check.checkA.pass" 1%float stats.Rate {[ "check" := "checkA" ]}.

(** The schedule up to the cancellation, what is scheduled after the
    cancellation's swap (a late producer and a tick that is never served),
    and the world in which [Run] observes the cancellation. *)
Definition sched_until_cancel : list (sched (ext := env reply_ok)) :=
  sched_before_tick ++ [Wake Tick] ++
    map (Producer (ext := env reply_ok)) batches_after_tick.
Definition sched_after_cancel : list (sched (ext := env reply_ok)) :=
  [Producer (ext := env reply_ok) [[sample_trend]]; Wake Tick].
Definition world_before_cancel : World :=
  snd (Run (ext := env reply_ok) 5 sched_until_cancel world0).

(** ** Properties *)

Section facts.

Context `{ext : Externals}.

Ltac run_monad :=
  unfold set_buffer, set_Client, set_startTime, log, emit_event, put_col,
    get_col, client_call, bind, ret; cbn [fst snd col trace].

(** *** The trace *)

Lemma appended_app (w : World) (c : Collector) (evs : list event) :
  appended w {| col := c; trace := trace w ++ evs |} = evs.
Proof. unfold appended; cbn [trace]. apply drop_app_length. Qed.

Lemma appended_refl (w : World) : appended w w = [].
Proof. unfold appended. apply drop_all. Qed.

Lemma client_calls_app (tr1 tr2 : list event) :
  client_calls (tr1 ++ tr2) = client_calls tr1 ++ client_calls tr2.
Proof. unfold client_calls. apply omap_app. Qed.

(** *** [dispatch] *)

Lemma call_then_warn (cl : statsd.call) (msg : string -> string) (w : World) :
  (err <- client_call cl ;;
   match err with
   | Some e => log WarnLevel [] (msg e)
   | None => ret tt
   end) w =
    (tt, {| col := col w;
            trace := trace w ++
              ClientCall cl (client_reply (trace w) cl) ::
              match client_reply (trace w) cl with
              | Some e => [LogEntry WarnLevel [] (msg e)]
              | None => []
              end |}).
Proof.
  run_monad. destruct (client_reply (trace w) cl) as [e|]; run_monad.
  - now rewrite <- app_assoc.
  - reflexivity.
Qed.

Lemma dispatch_unfold (entry : Sample) (w : World) :
  dispatch entry w =
    (tt, {| col := col w;
            trace := trace w ++ dispatch_events (trace w) (col w) entry |}).
Proof.
  unfold dispatch, dispatch_events, emission, tagList_of.
  unfold bind at 1, get_col.
  destruct (Type_ entry =? stats.Counter); [apply call_then_warn|].
  destruct (Type_ entry =? stats.Trend); [apply call_then_warn|].
  destruct (Type_ entry =? stats.Gauge); [apply call_then_warn|].
  destruct (Type_ entry =? stats.Rate).
  - cbv zeta. destruct (negb _); apply call_then_warn.
  - run_monad. rewrite app_nil_r. now destruct w.
Qed.

Lemma dispatch_appended (entry : Sample) (w : World) :
  appended w (snd (dispatch entry w)) = dispatch_events (trace w) (col w) entry.
Proof. rewrite dispatch_unfold. cbn [snd]. apply appended_app. Qed.

Lemma dispatch_calls (entry : Sample) (w : World) :
  client_calls (appended w (snd (dispatch entry w))) =
    match emission (col w) entry with
    | Some cl => [cl]
    | None => []
    end.
Proof.
  rewrite dispatch_appended. unfold dispatch_events.
  destruct (emission (col w) entry) as [cl|]; [|reflexivity].
  cbv zeta. now destruct (client_reply (trace w) cl).
Qed.

Lemma dispatch_col (entry : Sample) (w : World) :
  col (snd (dispatch entry w)) = col w.
Proof. now rewrite dispatch_unfold. Qed.

(** *** Strings and numbers *)

Lemma append_assoc (s1 s2 s3 : string) :
  (s1 +:+ s2) +:+ s3 = s1 +:+ s2 +:+ s3.
Proof.
  induction s1 as [|a s1 IH]; [reflexivity|].
  change (String a ((s1 +:+ s2) +:+ s3) = String a (s1 +:+ s2 +:+ s3)).
  now rewrite IH.
Qed.

Lemma checkToString_eq (check : string) (value : float) :
  checkToString check value =
    "check." +:+ check +:+
      (if PrimFloat.eqb value 0%float then ".fail" else ".pass").
Proof.
  unfold checkToString. cbv zeta. rewrite !append_assoc.
  now destruct (PrimFloat.eqb value 0%float).
Qed.

Lemma exact_int_trunc (f : float) (z : Z) :
  exact_int f z = true -> float_trunc f = Some z.
Proof.
  unfold exact_int, float_trunc.
  destruct (Prim2SF f) as [s|s| |s m e]; try discriminate.
  - intros ->%Z.eqb_eq. reflexivity.
  - destruct e as [|p|p]; cbv zeta.
    + now intros ->%Z.eqb_eq.
    + now intros ->%Z.eqb_eq.
    + intros [_ ->%Z.eqb_eq]%andb_prop. reflexivity.
Qed.

(** On a float with a fractional part [float_trunc] is the quotient that
    rounds towards zero. *)
Lemma float_trunc_quot (f : float) (s : bool) (m p : positive) :
  Prim2SF f = S754_finite s m (Zneg p) ->
  float_trunc f =
    Some (Z.quot (if s then - Zpos m else Zpos m) (2 ^ Zpos p)).
Proof.
  intros Hf. unfold float_trunc. rewrite Hf. f_equal.
  rewrite Z.shiftr_div_pow2 by lia.
  assert (0 < 2 ^ Z.pos p) by (apply Z.pow_pos_nonneg; lia).
  destruct s.
  - rewrite Z.quot_opp_l by lia. rewrite Z.quot_div_nonneg by lia. reflexivity.
  - rewrite Z.quot_div_nonneg by lia. reflexivity.
Qed.

Lemma int64_in_range (f : float) (z : Z) :
  float_trunc f = Some z -> int64_min <= z <= int64_max -> int64 f = z.
Proof.
  intros Hf [Hlo Hhi]. unfold int64. rewrite Hf.
  apply Z.leb_le in Hlo, Hhi. now rewrite Hlo, Hhi.
Qed.

(** *** The kind switch *)

(** C9: for a sample whose kind is none of Counter, Trend, Gauge and Rate,
    [dispatch] leaves the world as it found it: no call to the client, no
    error, no log entry. *)
Theorem dispatch_unknown_kind_silent (entry : Sample) (w : World) :
  Type_ entry <> stats.Counter ->
  Type_ entry <> stats.Trend ->
  Type_ entry <> stats.Gauge ->
  Type_ entry <> stats.Rate ->
  dispatch entry w = (tt, w).
Proof.
  intros Hc Ht Hg Hr. unfold dispatch.
  apply Z.eqb_neq in Hc, Ht, Hg, Hr. rewrite Hc, Ht, Hg, Hr.
  reflexivity.
Qed.

(** C2 (amended): for a Rate sample with a non-empty [check] tag,
    [dispatch] makes exactly one call to the client: a counter increment of
    1 named check.<checkname>.fail when the value equals zero and
    check.<checkname>.pass otherwise; unless that derived name happens to
    be the metric's, no call is made under the sample's own metric name. *)
Theorem dispatch_rate_check (entry : Sample) (check : string) (w : World) :
  Type_ entry = stats.Rate ->
  Tags entry !! "check" = Some check ->
  check <> "" ->
  let derived :=
    "check." +:+ check +:+
      (if PrimFloat.eqb (Value entry) 0%float then ".fail" else ".pass") in
  let calls := client_calls (appended w (snd (dispatch entry w))) in
  calls = [statsd.Count derived 1 (tagList_of (col w) entry) 1%float] /\
  (Metric entry <> derived ->
   Forall (fun c => call_name c <> Some (Metric entry)) calls).
Proof.
  intros Hkind Htag Hne derived calls.
  assert (Hcalls : calls =
    [statsd.Count derived 1 (tagList_of (col w) entry) 1%float]).
  { unfold calls. rewrite dispatch_calls. unfold emission.
    rewrite Hkind, Htag. change (default "" (Some check)) with check.
    change (stats.Rate =? stats.Counter) with false.
    change (stats.Rate =? stats.Trend) with false.
    change (stats.Rate =? stats.Gauge) with false.
    change (stats.Rate =? stats.Rate) with true. cbv iota zeta.
    destruct (String.eqb_spec check "") as [Heq|_]; [contradiction|].
    cbn [negb]. now rewrite checkToString_eq. }
  split; [exact Hcalls|].
  intros Hother. rewrite Hcalls. constructor; [|constructor].
  cbn [call_name]. congruence.
Qed.

(** C4 (amended): for a Counter sample, and for a Rate sample with no
    non-empty [check] tag, [dispatch] makes exactly one call: a counter
    increment on the sample's own metric name whose delta is the value
    converted to [int64], that is, for a value in the [int64] range, the
    value with its fraction discarded; the delta is the raw value when the
    value is an integer. *)
Theorem dispatch_counter_delta (entry : Sample) (w : World) :
  Type_ entry = stats.Counter \/
    (Type_ entry = stats.Rate /\ default "" (Tags entry !! "check") = "") ->
  client_calls (appended w (snd (dispatch entry w))) =
    [statsd.Count (Metric entry) (int64 (Value entry))
       (tagList_of (col w) entry) 1%float] /\
  (forall z, float_trunc (Value entry) = Some z ->
             int64_min <= z <= int64_max -> int64 (Value entry) = z) /\
  (forall z, exact_int (Value entry) z = true ->
             int64_min <= z <= int64_max -> int64 (Value entry) = z).
Proof.
  intros Hkind. split; [|split].
  - rewrite dispatch_calls. unfold emission.
    destruct Hkind as [-> | [-> ->]]; reflexivity.
  - intros z. apply int64_in_range.
  - intros z Hz. apply int64_in_range. now apply exact_int_trunc.
Qed.

(** C8: every call [dispatch] makes for a sample carries the same tag
    list: the empty list when [FilterTags] is nil, and otherwise the list
    the filter returns for the sample's tags; this includes the derived
    check counter of a Rate sample.  A sample of one of the four kinds
    gives rise to exactly one call. *)
Theorem dispatch_tags_uniform (entry : Sample) (w : World) :
  let calls := client_calls (appended w (snd (dispatch entry w))) in
  Forall (fun c => call_tags c =
                     Some (match FilterTags (col w) with
                           | None => []
                           | Some filter => filter (Tags entry)
                           end)) calls /\
  length calls =
    if (Type_ entry =? stats.Counter) || (Type_ entry =? stats.Trend) ||
       (Type_ entry =? stats.Gauge) || (Type_ entry =? stats.Rate)
    then 1%nat else 0%nat.
Proof.
  cbv zeta. rewrite dispatch_calls. unfold emission, tagList_of.
  destruct (Type_ entry =? stats.Counter);
    [split; [repeat constructor|reflexivity]|].
  destruct (Type_ entry =? stats.Trend);
    [split; [repeat constructor|reflexivity]|].
  destruct (Type_ entry =? stats.Gauge);
    [split; [repeat constructor|reflexivity]|].
  destruct (Type_ entry =? stats.Rate);
    [|split; [constructor|reflexivity]].
  cbv zeta. destruct (negb _); split; try reflexivity; repeat constructor.
Qed.

(** *** Counting in traces *)

Lemma warnings_app (tr1 tr2 : list event) :
  warnings (tr1 ++ tr2) = (warnings tr1 + warnings tr2)%nat.
Proof. unfold warnings. now rewrite List.filter_app, length_app. Qed.

Lemma failed_emissions_app (tr1 tr2 : list event) :
  failed_emissions (tr1 ++ tr2) =
    (failed_emissions tr1 + failed_emissions tr2)%nat.
Proof. unfold failed_emissions. now rewrite List.filter_app, length_app. Qed.

Lemma flushes_app (l1 l2 : list statsd.call) :
  flushes (l1 ++ l2) = (flushes l1 + flushes l2)%nat.
Proof. unfold flushes. now rewrite List.filter_app, length_app. Qed.

Lemma closes_app (l1 l2 : list statsd.call) :
  closes (l1 ++ l2) = (closes l1 + closes l2)%nat.
Proof. unfold closes. now rewrite List.filter_app, length_app. Qed.

Lemma emission_is_emission (c : Collector) (entry : Sample) (cl : statsd.call) :
  emission c entry = Some cl -> is_emission cl = true.
Proof.
  unfold emission.
  repeat match goal with
         | |- context [if ?b then _ else _] => destruct b
         end; intros [= <-] || discriminate; reflexivity.
Qed.

Lemma emissions_no_flush_close (c : Collector) (data : list Sample) :
  flushes (emissions c data) = 0%nat /\ closes (emissions c data) = 0%nat.
Proof.
  induction data as [|entry data [IHf IHc]]; [split; reflexivity|].
  unfold emissions. cbn [omap list_omap].
  destruct (emission c entry) as [cl|] eqn:E; [|exact (conj IHf IHc)].
  apply emission_is_emission in E.
  change (flushes ([cl] ++ emissions c data) = 0%nat /\
          closes ([cl] ++ emissions c data) = 0%nat).
  rewrite flushes_app, closes_app, IHf, IHc.
  destruct cl; try discriminate; split; reflexivity.
Qed.

Lemma emission_FilterTags (c c' : Collector) (entry : Sample) :
  FilterTags c = FilterTags c' -> emission c entry = emission c' entry.
Proof. intros H. unfold emission, tagList_of. now rewrite H. Qed.

Lemma emissions_FilterTags (c c' : Collector) (data : list Sample) :
  FilterTags c = FilterTags c' -> emissions c data = emissions c' data.
Proof.
  intros H. unfold emissions. induction data as [|entry data IH]; [reflexivity|].
  cbn [omap list_omap]. now rewrite IH, (emission_FilterTags c c' entry H).
Qed.

Lemma dispatch_events_calls (tr : list event) (c : Collector) (entry : Sample) :
  client_calls (dispatch_events tr c entry) =
    match emission c entry with Some cl => [cl] | None => [] end.
Proof.
  unfold dispatch_events. destruct (emission c entry) as [cl|]; [|reflexivity].
  cbv zeta. now destruct (client_reply tr cl).
Qed.

Lemma dispatch_events_warned (tr : list event) (c : Collector) (entry : Sample) :
  warnings (dispatch_events tr c entry) =
    failed_emissions (dispatch_events tr c entry).
Proof.
  unfold dispatch_events.
  destruct (emission c entry) as [cl|] eqn:E; [|reflexivity].
  apply emission_is_emission in E. cbv zeta.
  destruct (client_reply tr cl); unfold warnings, failed_emissions;
    cbn [List.filter length]; now rewrite ?E.
Qed.

(** *** [commit] *)

Lemma dispatched_spec (data : list Sample) (w : World) :
  exists evs,
    dispatched data w = {| col := col w; trace := trace w ++ evs |} /\
    client_calls evs = emissions (col w) data /\
    warnings evs = failed_emissions evs.
Proof.
  revert w. induction data as [|entry data IH]; intros w.
  - exists []. rewrite app_nil_r. now destruct w.
  - unfold dispatched. cbn [foldl]. fold (dispatched data (snd (dispatch entry w))).
    rewrite dispatch_unfold. cbn [snd].
    set (evs1 := dispatch_events (trace w) (col w) entry).
    destruct (IH {| col := col w; trace := trace w ++ evs1 |})
      as (evs2 & Hw & Hcalls & Hwarn).
    cbn [col trace] in Hw, Hcalls. exists (evs1 ++ evs2). split; [|split].
    + now rewrite Hw, app_assoc.
    + rewrite client_calls_app, Hcalls. unfold evs1.
      rewrite dispatch_events_calls. unfold emissions. cbn [omap list_omap].
      now destruct (emission (col w) entry).
    + rewrite warnings_app, failed_emissions_app, Hwarn. unfold evs1.
      now rewrite dispatch_events_warned.
Qed.

Lemma commit_unfold (data : list Sample) (w : World) :
  commit data w = client_call statsd.Flush (dispatched data w).
Proof.
  revert w. induction data as [|entry data IH]; intros w; [reflexivity|].
  cbn [commit]. unfold bind. destruct (dispatch entry w) as [[] w1] eqn:E.
  rewrite IH. unfold dispatched. cbn [foldl]. now rewrite E.
Qed.

Lemma commit_spec (data : list Sample) (w : World) :
  exists evs,
    commit data w =
      (client_reply (trace w ++ evs) statsd.Flush,
       {| col := col w;
          trace := trace w ++ evs ++
            [ClientCall statsd.Flush (client_reply (trace w ++ evs) statsd.Flush)] |}) /\
    dispatched data w = {| col := col w; trace := trace w ++ evs |} /\
    client_calls evs = emissions (col w) data /\
    warnings evs = failed_emissions evs.
Proof.
  destruct (dispatched_spec data w) as (evs & Hw & Hcalls & Hwarn).
  exists evs. repeat split; try assumption.
  rewrite commit_unfold, Hw. unfold client_call. cbn [col trace].
  now rewrite app_assoc.
Qed.

(** C7: [commit] dispatches the samples of the batch in order, whatever the
    client answers to each emission, then calls [Flush] once, as the last
    thing it does, and returns what that [Flush] answered; every emission
    the client answered with an error is matched by one warning in the
    log. *)
Theorem commit_dispatches_then_flushes (data : list Sample) (w : World) :
  let wd := dispatched data w in
  let r := fst (commit data w) in
  let w' := snd (commit data w) in
  commit data w = client_call statsd.Flush wd /\
  client_calls (appended w w') = emissions (col w) data ++ [statsd.Flush] /\
  flushes (client_calls (appended w w')) = 1%nat /\
  r = client_reply (trace wd) statsd.Flush /\
  trace w' = trace wd ++ [ClientCall statsd.Flush r] /\
  warnings (appended w w') = failed_emissions (appended w w') /\
  col w' = col w.
Proof.
  cbv zeta. destruct (commit_spec data w) as (evs & Hc & Hd & Hcalls & Hwarn).
  assert (Happ : appended w (snd (commit data w)) =
                 evs ++ [ClientCall statsd.Flush
                           (client_reply (trace w ++ evs) statsd.Flush)]).
  { rewrite Hc. cbn [snd]. apply appended_app. }
  split; [apply commit_unfold|]. rewrite Happ, client_calls_app, Hcalls.
  split; [reflexivity|]. split.
  { rewrite flushes_app.
    now rewrite (proj1 (emissions_no_flush_close (col w) data)). }
  rewrite Hc, Hd. cbn [fst snd col trace]. split; [reflexivity|].
  split; [now rewrite app_assoc|]. split; [|reflexivity].
  rewrite warnings_app, failed_emissions_app, Hwarn. f_equal.
  unfold warnings, failed_emissions. cbn [List.filter is_emission].
  now destruct (client_reply (trace w ++ evs) statsd.Flush).
Qed.

(** *** [Collect] *)

Lemma pointSamples_of_eq (containers : list SampleContainer) :
  pointSamples_of containers = samples_of containers.
Proof.
  unfold pointSamples_of.
  assert (Hinner : forall (l : list stats_Sample) (acc : list Sample),
    foldl (fun acc sample => acc ++ [generateDataPoint sample]) acc l =
      acc ++ map generateDataPoint l).
  { induction l as [|x l IH]; intros acc; cbn [foldl map].
    - now rewrite app_nil_r.
    - rewrite IH. now rewrite <- app_assoc. }
  assert (Houter : forall (cs : list SampleContainer) (acc : list Sample),
    foldl (fun acc container =>
             foldl (fun acc sample => acc ++ [generateDataPoint sample])
               acc (GetSamples container)) acc cs =
      acc ++ samples_of cs).
  { induction cs as [|c cs IH]; intros acc; cbn [foldl samples_of flat_map].
    - now rewrite app_nil_r.
    - rewrite IH, Hinner. now rewrite <- app_assoc. }
  apply (Houter containers []).
Qed.

Lemma with_buffer_same (w : World) (b : list Sample) :
  buffer (col w) = b -> with_buffer b w = w.
Proof. intros <-. now destruct w as [[] ?]. Qed.

Lemma Collect_spec (containers : list SampleContainer) (w : World) :
  Collect containers w =
    (tt, with_buffer (buffer (col w) ++ samples_of containers) w).
Proof.
  unfold Collect. cbv zeta. rewrite pointSamples_of_eq.
  destruct (samples_of containers) as [|s l] eqn:E.
  - cbn [length Nat.ltb Nat.leb]. unfold ret. f_equal. symmetry.
    apply with_buffer_same. now rewrite app_nil_r.
  - reflexivity.
Qed.

(** *** [pushMetrics] *)

Lemma pushMetrics_spec (w : World) :
  exists evs,
    pushMetrics w =
      (buffer (col w),
       {| col := col (with_buffer [] w); trace := trace w ++ evs |}) /\
    client_calls evs =
      match buffer (col w) with
      | [] => []
      | _ :: _ => emissions (col w) (buffer (col w)) ++ [statsd.Flush]
      end.
Proof.
  unfold pushMetrics. unfold bind at 1, get_col.
  destruct (buffer (col w)) as [|s l] eqn:Hb.
  - exists []. split; [|reflexivity]. cbn [length Nat.eqb]. unfold ret.
    rewrite app_nil_r. f_equal. rewrite <- (with_buffer_same w []) at 1 by exact Hb.
    reflexivity.
  - cbn [length Nat.eqb]. cbv zeta.
    unfold set_buffer, log, emit_event, put_col, get_col, bind at 1 2 3 4, ret.
    cbn [fst snd col trace].
    match goal with
    | |- context [commit ?d ?W] =>
        destruct (commit_spec d W) as (evs & Hc & _ & Hcalls & _)
    end.
    cbn [col trace] in Hc, Hcalls. unfold bind. rewrite Hc.
    rewrite (emissions_FilterTags _ (col w)) in Hcalls by reflexivity.
    set (r := client_reply _ statsd.Flush).
    destruct r as [e|]; eexists; (split;
       [unfold log, emit_event, ret; cbn [col trace]; unfold with_buffer;
        cbn [col trace]; rewrite <- ?app_assoc; reflexivity|]).
    + rewrite !client_calls_app, Hcalls. reflexivity.
    + rewrite !client_calls_app, Hcalls. reflexivity.
Qed.

Lemma pushMetrics_result (w : World) :
  fst (pushMetrics w) = buffer (col w) /\
  col (snd (pushMetrics w)) = col (with_buffer [] w).
Proof.
  destruct (pushMetrics_spec w) as (evs & -> & _). split; reflexivity.
Qed.

(** C6: on an empty buffer [pushMetrics] returns at once and leaves the
    world as it found it: no event at all, so no call to the client (no
    dispatch, no flush), and the buffer is still empty. *)
Theorem pushMetrics_empty_buffer (w : World) :
  buffer (col w) = [] ->
  pushMetrics w = ([], w) /\
  appended w (snd (pushMetrics w)) = [] /\
  client_calls (appended w (snd (pushMetrics w))) = [] /\
  buffer (col (snd (pushMetrics w))) = [].
Proof.
  intros Hb.
  assert (H : pushMetrics w = ([], w)).
  { unfold pushMetrics, bind, get_col. now rewrite Hb. }
  rewrite H. cbn [snd]. rewrite appended_refl. now repeat split.
Qed.

(** *** Interleaved [Collect] and [pushMetrics] *)

Lemma interleave_app (ops1 ops2 : list op) (w : World) :
  interleave (ops1 ++ ops2) w =
    (fst (interleave ops1 w) ++ fst (interleave ops2 (snd (interleave ops1 w))),
     snd (interleave ops2 (snd (interleave ops1 w)))).
Proof.
  revert w. induction ops1 as [|o ops1 IH]; intros w.
  - cbn. now destruct (interleave ops2 w).
  - cbn [app interleave]. destruct o as [containers|]; unfold bind.
    + destruct (Collect containers w) as [[] w1]. apply IH.
    + destruct (pushMetrics w) as [batch w1]. rewrite IH.
      destruct (interleave ops1 w1) as [bs w2]. cbn [fst snd ret].
      now destruct (interleave ops2 w2).
Qed.

Lemma interleave_conserves (ops : list op) (w : World) :
  concat (fst (interleave ops w)) ++ buffer (col (snd (interleave ops w))) =
    buffer (col w) ++ ingested ops.
Proof.
  revert w. induction ops as [|o ops IH]; intros w.
  - cbn. now rewrite app_nil_r.
  - cbn [interleave ingested flat_map]. destruct o as [containers|]; unfold bind.
    + rewrite Collect_spec. rewrite IH. cbn [with_buffer col buffer].
      now rewrite <- app_assoc.
    + destruct (pushMetrics_result w) as [Hb Hc].
      destruct (pushMetrics w) as [batch w1]. cbn [fst snd] in Hb, Hc.
      specialize (IH w1). destruct (interleave ops w1) as [bs w2].
      cbn [fst snd ret concat] in *. rewrite <- app_assoc, IH, Hb, Hc.
      reflexivity.
Qed.

(** C1 (amended): over any sequence of [Collect] and [pushMetrics] calls,
    the drained batches, one after the other, followed by the samples still
    pending in the buffer, are exactly the samples that were in the buffer
    at the start followed by the ingested samples, in insertion order: every
    sample is in at most one batch, in insertion order, and none is
    dropped.  When the sequence ends with a [pushMetrics], nothing is
    pending and the batches hold every sample. *)
Theorem drained_and_pending_are_ingested (ops : list op) (w : World) :
  let batches := fst (interleave ops w) in
  let pending := buffer (col (snd (interleave ops w))) in
  concat batches ++ pending = buffer (col w) ++ ingested ops /\
  concat batches ++ pending ≡ₚ buffer (col w) ++ ingested ops /\
  concat batches `prefix_of` buffer (col w) ++ ingested ops /\
  (forall ops', ops = ops' ++ [DoPushMetrics] ->
     pending = [] /\ concat batches = buffer (col w) ++ ingested ops).
Proof.
  cbv zeta. pose proof (interleave_conserves ops w) as H.
  split; [exact H|]. split; [now rewrite H|].
  split; [rewrite <- H; now apply prefix_app_r|].
  intros ops' ->.
  assert (Hp : buffer (col (snd (interleave (ops' ++ [DoPushMetrics]) w))) = []).
  { rewrite interleave_app. cbn [snd interleave]. unfold bind.
    destruct (pushMetrics_result (snd (interleave ops' w))) as [_ Hc].
    destruct (pushMetrics (snd (interleave ops' w))) as [batch w1].
    cbn [snd ret] in *. now rewrite Hc. }
  split; [exact Hp|]. rewrite Hp, app_nil_r in H. exact H.
Qed.

(** *** [finish] and [Run] *)

Lemma finish_unfold (w : World) :
  finish w =
    (tt, {| col := col w;
            trace := trace w ++
              ClientCall statsd.Close (client_reply (trace w) statsd.Close) ::
              match client_reply (trace w) statsd.Close with
              | Some e =>
                  [LogEntry WarnLevel []
                     (Type' (col w) +:+ ": Error closing the client, " +:+ e)]
              | None => []
              end |}).
Proof.
  unfold finish. unfold bind at 1, get_col.
  apply (call_then_warn statsd.Close
           (fun e => Type' (col w) +:+ ": Error closing the client, " +:+ e)).
Qed.

Lemma with_buffer_twice (b1 b2 : list Sample) (w : World) :
  with_buffer b2 (with_buffer b1 w) = with_buffer b2 w.
Proof. reflexivity. Qed.

(** A [Collect] that arrives while [finish] is at work has the effect of
    one that arrives before it. *)
Lemma Collect_finish_commute (containers : list SampleContainer) (w : World) :
  (Collect containers ;;; finish) w = (finish ;;; Collect containers) w.
Proof.
  unfold bind. rewrite Collect_spec, !finish_unfold, Collect_spec.
  reflexivity.
Qed.

Lemma late_collects_spec (s : list sched) (w : World) :
  late_collects s w =
    (tt, with_buffer (buffer (col w) ++ producer_samples s) w).
Proof.
  revert w. induction s as [|ev s IH]; intros w.
  - cbn [late_collects producer_samples]. rewrite app_nil_r.
    now rewrite (with_buffer_same w (buffer (col w))).
  - destruct ev as [containers|k]; cbn [late_collects producer_samples].
    + unfold bind. rewrite Collect_spec, IH.
      cbn [with_buffer col buffer trace]. now rewrite <- app_assoc.
    + apply IH.
Qed.

Lemma cancelled_app (s1 s2 : list sched) :
  cancelled (s1 ++ s2) = cancelled s1 || cancelled s2.
Proof.
  induction s1 as [|ev s1 IH]; [reflexivity|].
  destruct ev as [containers|[|]]; cbn [app cancelled]; auto.
Qed.

Lemma Run_loop_outcome_cancelled (s : list sched) (w : World) :
  fst (Run_loop s w) = if cancelled s then Returned else Waiting.
Proof.
  revert w. induction s as [|ev s IH]; intros w; [reflexivity|].
  destruct ev as [containers|[|]]; cbn [Run_loop cancelled]; unfold bind.
  - destruct (Collect containers w) as [[] w1]. apply IH.
  - destruct (pushMetrics w) as [batch w1]. apply IH.
  - destruct (pushMetrics w) as [batch w1].
    destruct (late_collects s w1) as [[] w2].
    now destruct (finish w2) as [[] w3].
Qed.

Lemma Run_loop_app (s1 s2 : list sched) (w : World) :
  cancelled s1 = false ->
  Run_loop (s1 ++ s2) w = Run_loop s2 (snd (Run_loop s1 w)).
Proof.
  revert w. induction s1 as [|ev s1 IH]; intros w Hc; [reflexivity|].
  destruct ev as [containers|[|]]; cbn [app Run_loop cancelled] in *;
    unfold bind.
  - destruct (Collect containers w) as [[] w1]. now apply IH.
  - destruct (pushMetrics w) as [batch w1]. now apply IH.
  - discriminate.
Qed.

Lemma Run_loop_outcome (s : list sched) (w : World) :
  fst (Run_loop s w) = Waiting \/ fst (Run_loop s w) = Returned.
Proof.
  rewrite Run_loop_outcome_cancelled. destruct (cancelled s); auto.
Qed.

Lemma Run_loop_producers (batches : list (list SampleContainer))
    (rest : list sched) (w : World) :
  Run_loop (map Producer batches ++ rest) w =
    Run_loop rest
      (with_buffer (buffer (col w) ++ flat_map samples_of batches) w).
Proof.
  revert w. induction batches as [|b batches IH]; intros w.
  - cbn [map app flat_map]. rewrite app_nil_r.
    now rewrite (with_buffer_same w (buffer (col w))).
  - cbn [map app flat_map Run_loop]. unfold bind. rewrite Collect_spec.
    rewrite IH. cbn [with_buffer col buffer trace].
    now rewrite <- app_assoc.
Qed.

(** What the cancellation branch does: one [pushMetrics], one [finish];
    what producers collect in the meantime stays in the buffer. *)
Lemma Run_loop_done (post : list sched) (w : World) :
  exists evs,
    Run_loop (Wake Done :: post) w =
      (Returned,
       {| col := col (with_buffer (producer_samples post) w);
          trace := trace w ++ evs |}) /\
    client_calls evs =
      match buffer (col w) with
      | [] => []
      | _ :: _ => emissions (col w) (buffer (col w)) ++ [statsd.Flush]
      end ++ [statsd.Close].
Proof.
  cbn [Run_loop]. unfold bind.
  destruct (pushMetrics_spec w) as (evs & -> & Hcalls).
  rewrite late_collects_spec, finish_unfold.
  cbn [with_buffer col buffer trace app]. unfold ret.
  eexists. split.
  - rewrite <- app_assoc. reflexivity.
  - rewrite client_calls_app, Hcalls. f_equal.
    now destruct (client_reply (trace w ++ evs) statsd.Close).
Qed.

Lemma Run_unfold (now : Z) (s : list sched) (w : World) :
  0 < PushInterval (Config_ (col w)) ->
  Run now s w =
    Run_loop s
      {| col := {| Client := Client (col w); Config_ := Config_ (col w);
                   Type' := Type' (col w); FilterTags := FilterTags (col w);
                   startTime := now; buffer := buffer (col w) |};
         trace := trace w ++
           [LogEntry DebugLevel [] (Type' (col w) +:+ ": Running!")] |}.
Proof.
  intros Hp. unfold Run. run_monad.
  apply Z.leb_gt in Hp. now rewrite Hp.
Qed.

Lemma Run_panics (now : Z) (s : list sched) (w : World) :
  PushInterval (Config_ (col w)) <= 0 ->
  fst (Run now s w) = Panicked /\
  client_calls (appended w (snd (Run now s w))) = [].
Proof.
  intros Hp. unfold Run. run_monad.
  apply Z.leb_le in Hp. rewrite Hp. cbn [fst snd]. split; [reflexivity|].
  now rewrite appended_app.
Qed.

Lemma appended_eq (w w' : World) (evs : list event) :
  trace w' = trace w ++ evs -> appended w w' = evs.
Proof. intros H. unfold appended. rewrite H. apply drop_app_length. Qed.

(** While it waits the loop never closes the client; it closes it once
    when it returns. *)
Lemma Run_loop_closes (s : list sched) (w : World) :
  exists evs,
    trace (snd (Run_loop s w)) = trace w ++ evs /\
    closes (client_calls evs) =
      match fst (Run_loop s w) with
      | Returned => 1%nat
      | Waiting | Panicked => 0%nat
      end.
Proof.
  revert w. induction s as [|ev s IH]; intros w.
  - exists []. cbn. now rewrite app_nil_r.
  - destruct ev as [containers|[|]].
    + cbn [Run_loop]. unfold bind. rewrite Collect_spec.
      destruct (IH (with_buffer (buffer (col w) ++ samples_of containers) w))
        as (evs & Ht & Hc).
      exists evs. now split.
    + cbn [Run_loop]. unfold bind.
      destruct (pushMetrics_spec w) as (evs1 & -> & Hcalls).
      destruct (IH {| col := col (with_buffer [] w); trace := trace w ++ evs1 |})
        as (evs2 & Ht & Hc).
      cbn [trace] in Ht. exists (evs1 ++ evs2). split.
      * now rewrite Ht, app_assoc.
      * rewrite client_calls_app, closes_app, Hc, Hcalls.
        destruct (buffer (col w)); [reflexivity|].
        rewrite closes_app, (proj2 (emissions_no_flush_close _ _)).
        reflexivity.
    + destruct (Run_loop_done s w) as (evs & -> & Hcalls).
      exists evs. cbn [fst snd trace]. split; [reflexivity|].
      rewrite Hcalls, closes_app.
      destruct (buffer (col w)); [reflexivity|].
      rewrite closes_app, (proj2 (emissions_no_flush_close _ _)).
      reflexivity.
Qed.

(** C3 (amended): when [Run] observes the cancellation signal, whether
    after a periodic tick or before the first one, it calls [pushMetrics]
    once more, on what the buffer then holds: the samples ingested since the
    last tick, or since the start when there was none.  That call
    dispatches these samples and calls [Flush] once when there are any, and
    makes no call when there are none.  [Run] then calls [Close], the only
    [Close] of the whole run and its last call to the client, and
    returns. *)
Theorem Run_cancellation (now : Z) (pre post : list sched) (w w1 : World) :
  Run now pre w = (Waiting, w1) ->
  let pending := buffer (col w1) in
  let run := Run now (pre ++ [Wake Done] ++ post) w in
  let calls := client_calls (appended w1 (snd run)) in
  fst run = Returned /\
  trace (snd run) = trace w1 ++ appended w1 (snd run) /\
  calls =
    match pending with
    | [] => []
    | _ :: _ => emissions (col w1) pending ++ [statsd.Flush]
    end ++ [statsd.Close] /\
  flushes calls = match pending with [] => 0%nat | _ :: _ => 1%nat end /\
  closes calls = 1%nat /\
  closes (client_calls (appended w (snd run))) = 1%nat /\
  (forall pre' batches,
     pre = pre' ++ [Wake Tick] ++ map Producer batches ->
     pending = flat_map samples_of batches) /\
  (forall batches,
     pre = map Producer batches ->
     pending = buffer (col w) ++ flat_map samples_of batches).
Proof.
  intros Hrun pending run calls.
  assert (Hp : 0 < PushInterval (Config_ (col w))).
  { destruct (Z.leb_spec (PushInterval (Config_ (col w))) 0) as [Hle|Hlt]; [|lia].
    destruct (Run_panics now pre w Hle) as [Hpanic _].
    rewrite Hrun in Hpanic. discriminate. }
  rewrite (Run_unfold _ _ _ Hp) in Hrun.
  set (w0 := {| col := {| Client := Client (col w); Config_ := Config_ (col w);
                          Type' := Type' (col w);
                          FilterTags := FilterTags (col w);
                          startTime := now; buffer := buffer (col w) |};
                trace := trace w ++
                  [LogEntry DebugLevel [] (Type' (col w) +:+ ": Running!")] |})
    in *.
  assert (Hnc : cancelled pre = false).
  { pose proof (Run_loop_outcome_cancelled pre w0) as Ho.
    rewrite Hrun in Ho. cbn [fst] in Ho. now destruct (cancelled pre). }
  assert (Hrun2 : run = Run_loop (Wake Done :: post) w1).
  { unfold run. rewrite (Run_unfold _ _ _ Hp). fold w0.
    rewrite (Run_loop_app pre _ w0 Hnc), Hrun. reflexivity. }
  destruct (Run_loop_done post w1) as (evs & Hd & Hcalls).
  assert (Happ : appended w1 (snd run) = evs).
  { rewrite Hrun2, Hd. apply appended_app. }
  assert (Hwhole : closes (client_calls (appended w (snd run))) = 1%nat).
  { assert (Hret : fst run = Returned) by now rewrite Hrun2, Hd.
    unfold run in Hret |- *. rewrite (Run_unfold _ _ _ Hp) in Hret |- *.
    fold w0 in Hret |- *.
    destruct (Run_loop_closes (pre ++ [Wake Done] ++ post) w0)
      as (evs0 & Ht & Hc).
    rewrite Hret in Hc. unfold w0 in Ht at 2. cbn [trace] in Ht.
    rewrite <- app_assoc in Ht. rewrite (appended_eq _ _ _ Ht). exact Hc. }
  unfold calls. rewrite Happ, Hcalls.
  split; [now rewrite Hrun2, Hd|]. split; [now rewrite Hrun2, Hd|].
  split; [reflexivity|]. fold pending.
  split; [|split; [|split; [exact Hwhole|split]]].
  - destruct pending; [reflexivity|].
    rewrite !flushes_app, (proj1 (emissions_no_flush_close _ _)). reflexivity.
  - destruct pending; [reflexivity|].
    rewrite !closes_app, (proj2 (emissions_no_flush_close _ _)). reflexivity.
  - intros pre' batches ->. unfold pending.
    rewrite cancelled_app in Hnc. apply orb_false_elim in Hnc as [Hnc' _].
    rewrite (Run_loop_app pre' _ w0 Hnc') in Hrun.
    cbn [app Run_loop] in Hrun. unfold bind in Hrun.
    destruct (pushMetrics_result (snd (Run_loop pre' w0))) as [_ Hcol].
    destruct (pushMetrics (snd (Run_loop pre' w0))) as [batch wt].
    cbn [snd] in Hcol.
    rewrite <- (app_nil_r (map Producer batches)) in Hrun.
    rewrite Run_loop_producers in Hrun. cbn [Run_loop] in Hrun.
    injection Hrun as <-. cbn [with_buffer col buffer]. now rewrite Hcol.
  - intros batches ->. unfold pending.
    rewrite <- (app_nil_r (map Producer batches)) in Hrun.
    rewrite Run_loop_producers in Hrun. cbn [Run_loop] in Hrun.
    injection Hrun as <-. reflexivity.
Qed.

(** *** [Init] *)

Lemma Init_empty_address (w : World) :
  Addr (Config_ (col w)) = "" ->
  Init w =
    (Some (Type' (col w) +:+ ": connection string is invalid. Received: "
             +:+ dquote +:+ dquote),
     {| col := col w;
        trace := trace w ++
          [LogEntry ErrorLevel []
             (Type' (col w) +:+ ": connection string is invalid. Received: "
                +:+ dquote +:+ dquote)] |}).
Proof.
  intros Ha. unfold Init. unfold bind at 1, get_col. cbv zeta. rewrite Ha.
  reflexivity.
Qed.

Lemma Init_client_built (w : World) (cl : statsd.Client) :
  Addr (Config_ (col w)) <> "" ->
  NewBuffered (Addr (Config_ (col w))) (BufferSize (Config_ (col w))) = inl cl ->
  Init w =
    (None,
     {| col :=
          {| Client :=
               Some (if String.eqb (Namespace (Config_ (col w))) "" then cl
                     else {| statsd.addr := statsd.addr cl;
                             statsd.bufferLength := statsd.bufferLength cl;
                             statsd.Namespace := Namespace (Config_ (col w)) |});
             Config_ := Config_ (col w); Type' := Type' (col w);
             FilterTags := FilterTags (col w); startTime := startTime (col w);
             buffer := buffer (col w) |};
        trace := trace w ++
          [NewBufferedCall (Addr (Config_ (col w))) (BufferSize (Config_ (col w)))] |}).
Proof.
  intros Ha Hnew. unfold Init. unfold bind at 1, get_col. cbv zeta.
  destruct (String.eqb_spec (Addr (Config_ (col w))) "") as [|_]; [contradiction|].
  rewrite Hnew. run_monad.
  now destruct (String.eqb (Namespace (Config_ (col w))) "").
Qed.

Lemma Init_client_failed (w : World) (e : string) :
  Addr (Config_ (col w)) <> "" ->
  NewBuffered (Addr (Config_ (col w))) (BufferSize (Config_ (col w))) = inr e ->
  Init w =
    (Some e,
     {| col := {| Client := None; Config_ := Config_ (col w);
                  Type' := Type' (col w); FilterTags := FilterTags (col w);
                  startTime := startTime (col w); buffer := buffer (col w) |};
        trace := trace w ++
          [NewBufferedCall (Addr (Config_ (col w))) (BufferSize (Config_ (col w)));
           LogEntry ErrorLevel [] ("Couldn't make buffered client, " +:+ e)] |}).
Proof.
  intros Ha Hnew. unfold Init. unfold bind at 1, get_col. cbv zeta.
  destruct (String.eqb_spec (Addr (Config_ (col w))) "") as [|_]; [contradiction|].
  rewrite Hnew. run_monad. now rewrite <- app_assoc.
Qed.

(** C5: with an empty address [Init] returns the invalid-address error
    without building a client: the collector, its [Client] field included,
    is unchanged and the only event is the error's log entry.  With a
    non-empty address and a client that [NewBuffered] builds, [Init] returns
    nil, stores the client and, when the configured namespace is not empty,
    sets it as the client's [Namespace]. *)
Theorem Init_address_and_namespace (w : World) :
  (Addr (Config_ (col w)) = "" ->
   let err := Type' (col w) +:+ ": connection string is invalid. Received: "
                +:+ dquote +:+ dquote in
   fst (Init w) = Some err /\
   col (snd (Init w)) = col w /\
   Client (col (snd (Init w))) = Client (col w) /\
   appended w (snd (Init w)) = [LogEntry ErrorLevel [] err]) /\
  (forall cl : statsd.Client,
   Addr (Config_ (col w)) <> "" ->
   NewBuffered (Addr (Config_ (col w))) (BufferSize (Config_ (col w))) = inl cl ->
   fst (Init w) = None /\
   (Namespace (Config_ (col w)) <> "" ->
    Client (col (snd (Init w))) =
      Some {| statsd.addr := statsd.addr cl;
              statsd.bufferLength := statsd.bufferLength cl;
              statsd.Namespace := Namespace (Config_ (col w)) |}) /\
   (Namespace (Config_ (col w)) = "" -> Client (col (snd (Init w))) = Some cl) /\
   appended w (snd (Init w)) =
     [NewBufferedCall (Addr (Config_ (col w))) (BufferSize (Config_ (col w)))]).
Proof.
  split.
  - intros Ha err. rewrite (Init_empty_address w Ha). cbn [fst snd col].
    rewrite appended_app. now repeat split.
  - intros cl Ha Hnew. rewrite (Init_client_built w cl Ha Hnew).
    cbn [fst snd col Client]. rewrite appended_app.
    split; [reflexivity|]. split; [|split; [|reflexivity]].
    + intros Hns.
      now destruct (String.eqb_spec (Namespace (Config_ (col w))) "").
    + intros ->. reflexivity.
Qed.

(** *** Operations and the fields they do not read *)

(** [dispatch] and [commit] read nothing of the collector but [FilterTags]:
    they commute with any change [f] of the collector that keeps it. *)
Lemma dispatched_frame (f : Collector -> Collector) :
  (forall c, FilterTags (f c) = FilterTags c) ->
  forall (data : list Sample) (w : World),
    dispatched data {| col := f (col w); trace := trace w |} =
      {| col := f (col (dispatched data w));
         trace := trace (dispatched data w) |}.
Proof.
  intros Hf data. induction data as [|entry data IH]; intros w; [reflexivity|].
  unfold dispatched. cbn [foldl].
  fold (dispatched data (snd (dispatch entry w))).
  fold (dispatched data
          (snd (dispatch entry {| col := f (col w); trace := trace w |}))).
  rewrite <- IH. f_equal. rewrite !dispatch_unfold. cbn [snd col trace].
  unfold dispatch_events.
  now rewrite (emission_FilterTags (f (col w)) (col w) entry (Hf (col w))).
Qed.

Lemma commit_frame (f : Collector -> Collector) :
  (forall c, FilterTags (f c) = FilterTags c) ->
  forall (data : list Sample) (w : World),
    commit data {| col := f (col w); trace := trace w |} =
      (fst (commit data w),
       {| col := f (col (snd (commit data w)));
          trace := trace (snd (commit data w)) |}).
Proof.
  intros Hf data w. rewrite !commit_unfold, (dispatched_frame f Hf).
  reflexivity.
Qed.

(** X1: a producer's [Collect] that arrives while [commit] is at work on a
    drained batch has the same effect as one that arrives after it: treating
    [pushMetrics] as one step loses no interleaving. *)
Lemma Collect_commit_commute (containers : list SampleContainer)
    (data : list Sample) (w : World) :
  (Collect containers ;;; commit data) w =
    (r <- commit data ;; Collect containers ;;; ret r) w.
Proof.
  unfold bind. rewrite Collect_spec.
  pose proof (commit_frame
    (fun c => {| Client := Client c; Config_ := Config_ c; Type' := Type' c;
                 FilterTags := FilterTags c; startTime := startTime c;
                 buffer := buffer (col w) ++ samples_of containers |})
    (fun c => eq_refl) data w) as H.
  change (commit data
            (with_buffer (buffer (col w) ++ samples_of containers) w) =
          (fst (commit data w),
           with_buffer (buffer (col w) ++ samples_of containers)
             (snd (commit data w)))) in H.
  rewrite H. destruct (commit_spec data w) as (evs & Hc & _).
  rewrite Hc. cbn [fst snd]. rewrite Collect_spec. reflexivity.
Qed.

Lemma pushMetrics_unfold (w : World) :
  pushMetrics w =
    match buffer (col w) with
    | [] => ([], w)
    | _ :: _ =>
        let r :=
          commit (buffer (col w))
            {| col := col (with_buffer [] w);
               trace := trace w ++
                 [LogEntry DebugLevel
                    [("samples", FInt (Z.of_nat (length (buffer (col w)))))]
                    (Type' (col w) +:+ ": Pushing metrics to server")] |} in
        (buffer (col w),
         {| col := col (snd r);
            trace := trace (snd r) ++
              match fst r with
              | Some e =>
                  [LogEntry ErrorLevel [("error", FError e)]
                     (Type' (col w) +:+ ": Couldn't commit a batch")]
              | None => []
              end |})
    end.
Proof.
  unfold pushMetrics. unfold bind at 1, get_col.
  destruct (buffer (col w)) as [|s l] eqn:Hb; [reflexivity|].
  cbn [length Nat.eqb]. cbv zeta.
  unfold set_buffer, log, emit_event, put_col, get_col, bind, ret.
  cbn [fst snd col trace with_buffer].
  destruct (commit (s :: l) _) as [[e|] w1]; cbn [fst snd col trace].
  - reflexivity.
  - rewrite app_nil_r. now destruct w1.
Qed.

Lemma pushMetrics_PushInterval (p : Z) (w : World) :
  pushMetrics (with_PushInterval p w) =
    (fst (pushMetrics w), with_PushInterval p (snd (pushMetrics w))).
Proof.
  rewrite !pushMetrics_unfold.
  pose proof (commit_frame
    (fun c : Collector =>
       {| Client := Client c;
          Config_ := {| Addr := Addr (Config_ c);
                        BufferSize := BufferSize (Config_ c);
                        Namespace := Namespace (Config_ c);
                        PushInterval := p |};
          Type' := Type' c; FilterTags := FilterTags c;
          startTime := startTime c; buffer := buffer c |})
    (fun c => eq_refl) (buffer (col w))
    {| col := col (with_buffer [] w);
       trace := trace w ++
         [LogEntry DebugLevel
            [("samples", FInt (Z.of_nat (length (buffer (col w)))))]
            (Type' (col w) +:+ ": Pushing metrics to server")] |}) as H.
  cbn [with_PushInterval with_buffer col trace buffer Type' Config_ Addr
       BufferSize Namespace Client FilterTags startTime] in H |- *.
  destruct (buffer (col w)) as [|s l]; [reflexivity|]. cbv zeta.
  rewrite H. reflexivity.
Qed.

Lemma Collect_PushInterval (p : Z) (containers : list SampleContainer) (w : World) :
  Collect containers (with_PushInterval p w) =
    (tt, with_PushInterval p (snd (Collect containers w))).
Proof. rewrite !Collect_spec. reflexivity. Qed.

Lemma finish_PushInterval (p : Z) (w : World) :
  finish (with_PushInterval p w) = (tt, with_PushInterval p (snd (finish w))).
Proof. rewrite !finish_unfold. reflexivity. Qed.

Lemma Init_PushInterval (p : Z) (w : World) :
  Init (with_PushInterval p w) =
    (fst (Init w), with_PushInterval p (snd (Init w))).
Proof.
  destruct (String.eqb_spec (Addr (Config_ (col w))) "") as [Ha|Ha].
  - rewrite (Init_empty_address w Ha).
    rewrite (Init_empty_address (with_PushInterval p w) Ha). reflexivity.
  - destruct (NewBuffered (Addr (Config_ (col w))) (BufferSize (Config_ (col w))))
      as [cl|e] eqn:Hnew.
    + rewrite (Init_client_built w cl Ha Hnew).
      rewrite (Init_client_built (with_PushInterval p w) cl Ha Hnew).
      reflexivity.
    + rewrite (Init_client_failed w e Ha Hnew).
      rewrite (Init_client_failed (with_PushInterval p w) e Ha Hnew).
      reflexivity.
Qed.

Lemma late_collects_PushInterval (p : Z) (s : list sched) (w : World) :
  late_collects s (with_PushInterval p w) =
    (tt, with_PushInterval p (snd (late_collects s w))).
Proof. rewrite !late_collects_spec. reflexivity. Qed.

Lemma Run_loop_PushInterval (p : Z) (s : list sched) (w : World) :
  Run_loop s (with_PushInterval p w) =
    (fst (Run_loop s w), with_PushInterval p (snd (Run_loop s w))).
Proof.
  revert w. induction s as [|ev s IH]; intros w; [reflexivity|].
  cbn [Run_loop]. destruct ev as [containers|[|]]; unfold bind.
  - rewrite Collect_PushInterval. destruct (Collect containers w) as [[] w1].
    apply IH.
  - rewrite pushMetrics_PushInterval. destruct (pushMetrics w) as [batch w1].
    apply IH.
  - rewrite pushMetrics_PushInterval. destruct (pushMetrics w) as [batch w1].
    cbn [fst snd]. rewrite late_collects_PushInterval.
    destruct (late_collects s w1) as [[] w2]. cbn [fst snd].
    rewrite finish_PushInterval.
    now destruct (finish w2) as [[] w3].
Qed.

(** C10: [Init] looks at the address and at what [NewBuffered] answers, and
    at nothing else: with a non-empty address and a client that can be
    built it returns nil whatever the push interval is, zero and negative
    values included.  No operation of the collector branches on the push
    interval: [Init], [Collect], [pushMetrics], [finish] and the loop of
    [Run] do the same whatever its value; [Run] only hands it to the
    ticker. *)
Theorem Init_ignores_PushInterval (p : Z) (cl : statsd.Client) (w : World) :
  Addr (Config_ (col w)) <> "" ->
  NewBuffered (Addr (Config_ (col w))) (BufferSize (Config_ (col w))) = inl cl ->
  fst (Init (with_PushInterval p w)) = None /\
  Init (with_PushInterval p w) =
    (fst (Init w), with_PushInterval p (snd (Init w))) /\
  (forall containers,
     Collect containers (with_PushInterval p w) =
       (tt, with_PushInterval p (snd (Collect containers w)))) /\
  pushMetrics (with_PushInterval p w) =
    (fst (pushMetrics w), with_PushInterval p (snd (pushMetrics w))) /\
  finish (with_PushInterval p w) =
    (tt, with_PushInterval p (snd (finish w))) /\
  (forall s,
     Run_loop s (with_PushInterval p w) =
       (fst (Run_loop s w), with_PushInterval p (snd (Run_loop s w)))).
Proof.
  intros Ha Hnew. split.
  - now rewrite (Init_client_built (with_PushInterval p w) cl Ha Hnew).
  - split; [apply Init_PushInterval|].
    split; [intros; apply Collect_PushInterval|].
    split; [apply pushMetrics_PushInterval|].
    split; [apply finish_PushInterval|].
    intros; apply Run_loop_PushInterval.
Qed.

(** *** Failures at start-up *)

(** X2: with a push interval that is not positive, [Run] panics in
    [time.NewTicker] right after its first log entry: it makes no call to
    the client and leaves the collector as it was. *)
Theorem Run_nonpositive_interval_panics (now : Z) (s : list sched) (w : World) :
  PushInterval (Config_ (col w)) <= 0 ->
  Run now s w =
    (Panicked,
     {| col := col w;
        trace := trace w ++
          [LogEntry DebugLevel [] (Type' (col w) +:+ ": Running!")] |}).
Proof.
  intros Hp. unfold Run. run_monad.
  apply Z.leb_le in Hp. now rewrite Hp.
Qed.

(** X3: when the address is not empty and [NewBuffered] fails, [Init]
    returns that error, logs it, and leaves the collector without a
    client. *)
Theorem Init_client_construction_error (w : World) (e : string) :
  Addr (Config_ (col w)) <> "" ->
  NewBuffered (Addr (Config_ (col w))) (BufferSize (Config_ (col w))) = inr e ->
  fst (Init w) = Some e /\
  Client (col (snd (Init w))) = None /\
  appended w (snd (Init w)) =
    [NewBufferedCall (Addr (Config_ (col w))) (BufferSize (Config_ (col w)));
     LogEntry ErrorLevel [] ("Couldn't make buffered client, " +:+ e)].
Proof.
  intros Ha Hnew. rewrite (Init_client_failed w e Ha Hnew).
  cbn [fst snd col Client]. now rewrite appended_app.
Qed.

End facts.

(** ** The properties on concrete inputs *)

Lemma dispatch_unknown_kind_silent_witness :
  dispatch (ext := env reply_fail) sample_unknown_kind world0 = (tt, world0).
Proof.
  apply (dispatch_unknown_kind_silent (ext := env reply_fail)
           sample_unknown_kind world0); discriminate.
Defined.

Lemma dispatch_rate_check_witness :
  client_calls
    (appended world0
       (snd (dispatch (ext := env reply_ok) sample_check_pass world0))) =
    [statsd.Count "check.checkA.pass" 1 [] 1%float] /\
  client_calls
    (appended world0
       (snd (dispatch (ext := env reply_fail) sample_check_fail world0))) =
    [statsd.Count "check.checkA.fail" 1 [] 1%float].
Proof.
  split.
  - apply (dispatch_rate_check (ext := env reply_ok)
             sample_check_pass "checkA" world0);
      [reflexivity | reflexivity | discriminate].
  - apply (dispatch_rate_check (ext := env reply_fail)
             sample_check_fail "checkA" world0);
      [reflexivity | reflexivity | discriminate].
Defined.

(** C2 as stated fails: a Rate sample whose own metric name is
    check.checkA.pass, tagged with the check checkA and of value 1, is sent
    under check.checkA.pass, which is the sample's own metric name. *)
Lemma check_sample_named_like_derived :
  Type_ sample_check_named_like_derived = stats.Rate /\
  Tags sample_check_named_like_derived !! "check" = Some "checkA" /\
  client_calls
    (appended world0
       (snd (dispatch (ext := env reply_ok)
               sample_check_named_like_derived world0))) =
    [statsd.Count "check.checkA.pass" 1 [] 1%float] /\
  Exists
    (fun c => call_name c = Some (Metric sample_check_named_like_derived))
    (client_calls
       (appended world0
          (snd (dispatch (ext := env reply_ok)
                  sample_check_named_like_derived world0)))).
Proof.
  split; [reflexivity|]. split; [reflexivity|]. split; [reflexivity|].
  apply Exists_cons_hd. reflexivity.
Qed.

Lemma dispatch_counter_delta_witness :
  client_calls
    (appended world0
       (snd (dispatch (ext := env reply_ok) sample_counter_int world0))) =
    [statsd.Count "iterations" 3 [] 1%float] /\
  client_calls
    (appended world0
       (snd (dispatch (ext := env reply_ok) sample_rate_plain world0))) =
    [statsd.Count "http_req_failed" 1 [] 1%float].
Proof.
  split.
  - apply (dispatch_counter_delta (ext := env reply_ok)
             sample_counter_int world0). left. reflexivity.
  - apply (dispatch_counter_delta (ext := env reply_ok)
             sample_rate_plain world0). right. split; reflexivity.
Defined.

(** C4 as stated fails: the counter sample of value 1.5 is sent with the
    delta 1, and 1.5 is not the integer 1. *)
Lemma counter_delta_drops_fraction :
  Value sample_counter = 1.5%float /\
  client_calls
    (appended world0
       (snd (dispatch (ext := env reply_ok) sample_counter world0))) =
    [statsd.Count "http_reqs" 1 [] 1%float] /\
  exact_int (Value sample_counter) 1 = false.
Proof. repeat split. Qed.

Lemma pushMetrics_empty_buffer_witness :
  pushMetrics (ext := env reply_fail) world0 = ([], world0).
Proof.
  apply (pushMetrics_empty_buffer (ext := env reply_fail) world0). reflexivity.
Defined.

(** C1 as stated fails: after one [Collect] of one sample and no
    [pushMetrics], nothing has been drained, so the drained samples are not
    the ingested ones. *)
Lemma collected_sample_is_pending_until_pushed :
  concat (fst (interleave (ext := env reply_ok)
                 [DoCollect (ext := env reply_ok) [[sample_counter_int]]]
                 world0)) = [] /\
  ingested (ext := env reply_ok)
    [DoCollect (ext := env reply_ok) [[sample_counter_int]]] =
    [sample_counter_int] /\
  buffer (col (snd (interleave (ext := env reply_ok)
                      [DoCollect (ext := env reply_ok) [[sample_counter_int]]]
                      world0))) = [sample_counter_int] /\
  ~ (concat (fst (interleave (ext := env reply_ok)
                    [DoCollect (ext := env reply_ok) [[sample_counter_int]]]
                    world0)) ≡ₚ
     ingested (ext := env reply_ok)
       [DoCollect (ext := env reply_ok) [[sample_counter_int]]]).
Proof.
  split; [reflexivity|]. split; [reflexivity|]. split; [reflexivity|].
  intros H. apply Permutation_length in H. discriminate H.
Qed.

Lemma Run_cancellation_witness :
  fst (Run (ext := env reply_ok) 5
         (sched_until_cancel ++ [Wake Done] ++ sched_after_cancel)
         world0) = Returned /\
  client_calls
    (appended world_before_cancel
       (snd (Run (ext := env reply_ok) 5
               (sched_until_cancel ++ [Wake Done] ++ sched_after_cancel)
               world0))) =
    [statsd.Count "check.checkA.pass" 1 [] 1%float; statsd.Flush; statsd.Close].
Proof.
  pose proof (Run_cancellation (ext := env reply_ok) 5 sched_until_cancel
                sched_after_cancel world0 world_before_cancel eq_refl) as H.
  cbv zeta in H. destruct H as (Hret & _ & Hcalls & _).
  split; [exact Hret | exact Hcalls].
Defined.

(** C3 as stated fails: cancelled right after a tick, with nothing ingested
    in between, [Run] makes no further [Flush]: the only one is the tick's,
    and [Close] follows it directly. *)
Lemma Run_cancelled_with_nothing_pending :
  fst (Run (ext := env reply_ok) 5
         [Producer (ext := env reply_ok) [[sample_counter_int]];
          Wake Tick; Wake Done] world0) = Returned /\
  client_calls
    (trace (snd (Run (ext := env reply_ok) 5
                   [Producer (ext := env reply_ok) [[sample_counter_int]];
                    Wake Tick] world0))) =
    [statsd.Count "iterations" 3 [] 1%float; statsd.Flush] /\
  client_calls
    (trace (snd (Run (ext := env reply_ok) 5
                   [Producer (ext := env reply_ok) [[sample_counter_int]];
                    Wake Tick; Wake Done] world0))) =
    [statsd.Count "iterations" 3 [] 1%float; statsd.Flush; statsd.Close].
Proof. repeat split. Qed.

Lemma Init_address_and_namespace_witness :
  fst (Init (ext := env reply_ok) world_no_addr) =
    Some ("statsd: connection string is invalid. Received: " +:+ dquote +:+ dquote) /\
  Client (col (snd (Init (ext := env reply_ok) world_no_addr))) = None /\
  fst (Init (ext := env reply_ok) world0) = None /\
  Client (col (snd (Init (ext := env reply_ok) world0))) =
    Some (statsd.mkClient "localhost:8125" 20 "k6.").
Proof.
  destruct (Init_address_and_namespace (ext := env reply_ok) world_no_addr)
    as [Hempty _].
  destruct (Hempty eq_refl) as (Herr & _ & Hclient & _).
  destruct (Init_address_and_namespace (ext := env reply_ok) world0)
    as [_ Hbuilt].
  destruct (Hbuilt (statsd.mkClient "localhost:8125" 20 "")
              ltac:(discriminate) eq_refl) as (Hnil & Hns & _).
  split; [exact Herr|]. split; [exact Hclient|]. split; [exact Hnil|].
  apply Hns. discriminate.
Defined.

Lemma Init_ignores_PushInterval_witness :
  fst (Init (ext := env reply_ok) (with_PushInterval 0 world0)) = None /\
  fst (Init (ext := env reply_ok) (with_PushInterval (-5) world0)) = None.
Proof.
  split.
  - apply (Init_ignores_PushInterval (ext := env reply_ok) 0
             (statsd.mkClient "localhost:8125" 20 "") world0);
      [discriminate | reflexivity].
  - apply (Init_ignores_PushInterval (ext := env reply_ok) (-5)
             (statsd.mkClient "localhost:8125" 20 "") world0);
      [discriminate | reflexivity].
Defined.

Lemma Run_nonpositive_interval_panics_witness :
  fst (Run (ext := env reply_ok) 5
         [Producer (ext := env reply_ok) [[sample_counter_int]]; Wake Done]
         (with_PushInterval 0 world0)) = Panicked.
Proof.
  rewrite (Run_nonpositive_interval_panics (ext := env reply_ok) 5
             [Producer (ext := env reply_ok) [[sample_counter_int]]; Wake Done]
             (with_PushInterval 0 world0)).
  - reflexivity.
  - cbn. lia.
Defined.

Lemma Init_client_construction_error_witness :
  fst (Init (ext := env reply_ok) world_bad_addr) = Some "dial failed" /\
  Client (col (snd (Init (ext := env reply_ok) world_bad_addr))) = None.
Proof.
  destruct (Init_client_construction_error (ext := env reply_ok)
              world_bad_addr "dial failed" ltac:(discriminate) eq_refl)
    as (Herr & Hclient & _).
  split; [exact Herr | exact Hclient].
Defined.

(** ** Further properties of the operations *)

Section more_facts.

Context `{ext : Externals}.

Ltac step_monad :=
  unfold set_buffer, set_Client, set_startTime, log, emit_event, put_col,
    get_col, client_call, bind, ret; cbn [fst snd col trace].

(** *** The kind switch, continued *)

(** X4: a Trend sample is sent as one timing and a Gauge sample as one
    gauge, on the sample's own metric name, with the sample's value as it
    is (no conversion to an integer, unlike counters) and the filtered tag
    list. *)
Theorem dispatch_trend_gauge_raw_value (entry : Sample) (w : World) :
  Type_ entry = stats.Trend \/ Type_ entry = stats.Gauge ->
  client_calls (appended w (snd (dispatch entry w))) =
    [if Type_ entry =? stats.Trend then
       statsd.TimeInMilliseconds (Metric entry) (Value entry)
         (tagList_of (col w) entry) 1%float
     else
       statsd.Gauge (Metric entry) (Value entry)
         (tagList_of (col w) entry) 1%float].
Proof.
  intros Hkind. rewrite dispatch_calls. unfold emission.
  destruct Hkind as [-> | ->]; reflexivity.
Qed.

Lemma string_length_append (s1 s2 : string) :
  String.length (s1 +:+ s2) = (String.length s1 + String.length s2)%nat.
Proof.
  induction s1 as [|a s1 IH]; [reflexivity|].
  change (S (String.length (s1 +:+ s2)) =
          S (String.length s1 + String.length s2)).
  now rewrite IH.
Qed.

Lemma string_append_inj (s1 s2 t1 t2 : string) :
  String.length t1 = String.length t2 ->
  s1 +:+ t1 = s2 +:+ t2 -> s1 = s2 /\ t1 = t2.
Proof.
  intros Hlen. revert s2. induction s1 as [|a s1 IH]; intros s2 H.
  - destruct s2 as [|b s2]; [now split|]. exfalso.
    apply (f_equal String.length) in H.
    change (String.length t1 = S (String.length (s2 +:+ t2))) in H.
    rewrite string_length_append in H. lia.
  - destruct s2 as [|b s2].
    + exfalso. apply (f_equal String.length) in H.
      change (S (String.length (s1 +:+ t1)) = String.length t2) in H.
      rewrite string_length_append in H. lia.
    + change (String a (s1 +:+ t1) = String b (s2 +:+ t2)) in H.
      injection H as -> H. destruct (IH s2 H) as [-> ->]. now split.
Qed.

Lemma string_append_inv_head (p s t : string) :
  p +:+ s = p +:+ t -> s = t.
Proof.
  induction p as [|a p IH]; intros H; [exact H|].
  change (String a (p +:+ s) = String a (p +:+ t)) in H.
  injection H as H. now apply IH.
Qed.

(** X5: the derived check names never collide: two names are equal only
    for the same check name and the same outcome (a value equal to zero on
    both sides, or on neither). *)
Theorem checkToString_inj (check1 check2 : string) (value1 value2 : float) :
  checkToString check1 value1 = checkToString check2 value2 ->
  check1 = check2 /\
  PrimFloat.eqb value1 0%float = PrimFloat.eqb value2 0%float.
Proof.
  rewrite !checkToString_eq. intros H.
  apply string_append_inv_head in H.
  apply string_append_inj in H.
  - destruct H as [-> H]. split; [reflexivity|].
    destruct (PrimFloat.eqb value1 0%float), (PrimFloat.eqb value2 0%float);
      (reflexivity || discriminate H).
  - now destruct (PrimFloat.eqb value1 0%float), (PrimFloat.eqb value2 0%float).
Qed.

(** X6: for a sample of one of the four kinds [dispatch] makes its one call
    and, when the client answers with an error, writes one warning that
    names the sample's own metric (also for the derived check counter) and
    the error; the error goes nowhere else and the collector is left as it
    was. *)
Theorem dispatch_failure_is_warned (entry : Sample) (w : World) :
  Type_ entry = stats.Counter \/ Type_ entry = stats.Trend \/
    Type_ entry = stats.Gauge \/ Type_ entry = stats.Rate ->
  exists cl,
    emission (col w) entry = Some cl /\
    dispatch entry w =
      (tt, {| col := col w;
              trace := trace w ++
                ClientCall cl (client_reply (trace w) cl) ::
                match client_reply (trace w) cl with
                | Some e =>
                    [LogEntry WarnLevel []
                       ("Error while sending metric " +:+ Metric entry
                          +:+ ": " +:+ e)]
                | None => []
                end |}).
Proof.
  intros Hkind.
  assert (Hem : exists cl, emission (col w) entry = Some cl).
  { unfold emission.
    destruct Hkind as [-> | [-> | [-> | ->]]]; cbn [Z.eqb stats.Counter
      stats.Trend stats.Gauge stats.Rate Pos.eqb]; try (eexists; reflexivity).
    destruct (negb _); eexists; reflexivity. }
  destruct Hem as [cl Hcl]. exists cl. split; [exact Hcl|].
  rewrite dispatch_unfold. unfold dispatch_events. now rewrite Hcl.
Qed.

(** X7: for a value with a fractional part whose magnitude fits [int64],
    the conversion [int64(value)] rounds towards zero: the result has the
    value's sign and its magnitude is the whole part of the value's. *)
Theorem int64_rounds_towards_zero (f : float) (s : bool) (m p : positive) :
  Prim2SF f = S754_finite s m (Zneg p) ->
  Zpos m / 2 ^ Zpos p <= int64_max ->
  Z.abs (int64 f) * 2 ^ Zpos p <= Zpos m < (Z.abs (int64 f) + 1) * 2 ^ Zpos p /\
  (if s then int64 f <= 0 else 0 <= int64 f).
Proof.
  intros Hf Hrange.
  assert (Hpow : 0 < 2 ^ Zpos p) by (apply Z.pow_pos_nonneg; lia).
  assert (Hq : 0 <= Zpos m / 2 ^ Zpos p) by (apply Z.div_pos; lia).
  assert (Ht : float_trunc f =
               Some (if s then - (Zpos m / 2 ^ Zpos p) else Zpos m / 2 ^ Zpos p)).
  { unfold float_trunc. rewrite Hf. now rewrite Z.shiftr_div_pow2 by lia. }
  assert (Hi : int64 f =
               if s then - (Zpos m / 2 ^ Zpos p) else Zpos m / 2 ^ Zpos p).
  { apply int64_in_range; [exact Ht|].
    unfold int64_min, int64_max in *. destruct s; lia. }
  rewrite Hi.
  assert (Habs : Z.abs (if s then - (Zpos m / 2 ^ Zpos p)
                        else Zpos m / 2 ^ Zpos p) = Zpos m / 2 ^ Zpos p).
  { destruct s; lia. }
  rewrite Habs. split; [|destruct s; lia].
  pose proof (Z.div_mod (Zpos m) (2 ^ Zpos p) ltac:(lia)) as Hdm.
  pose proof (Z.mod_pos_bound (Zpos m) (2 ^ Zpos p) Hpow) as Hmod.
  nia.
Qed.

(** *** The buffer, continued *)

(** X8: on a non-empty buffer [pushMetrics] takes the whole buffer and
    leaves it empty, logs the number of samples first, dispatches them and
    flushes once; when the flush fails it logs the error as its last event
    and the batch is gone all the same: nothing is put back in the
    buffer. *)
Theorem pushMetrics_drains_and_drops (w : World) :
  buffer (col w) <> [] ->
  exists evs r,
    pushMetrics w =
      (buffer (col w),
       {| col := col (with_buffer [] w);
          trace := trace w ++
            LogEntry DebugLevel
              [("samples", FInt (Z.of_nat (length (buffer (col w)))))]
              (Type' (col w) +:+ ": Pushing metrics to server") ::
            evs ++
            ClientCall statsd.Flush r ::
            match r with
            | Some e =>
                [LogEntry ErrorLevel [("error", FError e)]
                   (Type' (col w) +:+ ": Couldn't commit a batch")]
            | None => []
            end |}) /\
    client_calls evs = emissions (col w) (buffer (col w)).
Proof.
  intros Hne. rewrite pushMetrics_unfold.
  destruct (buffer (col w)) as [|s l] eqn:Hb; [contradiction|]. cbv zeta.
  match goal with
  | |- context [commit ?d ?W] =>
      destruct (commit_spec d W) as (evs & Hc & _ & Hcalls & _)
  end.
  rewrite Hc. cbn [fst snd col trace with_buffer] in *.
  rewrite (emissions_FilterTags _ (col w)) in Hcalls by reflexivity.
  exists evs. eexists. split; [|exact Hcalls].
  f_equal. f_equal. rewrite <- !app_assoc. reflexivity.
Qed.

Lemma pushMetrics_on_empty (w : World) :
  buffer (col w) = [] -> pushMetrics w = ([], w).
Proof. intros Hb. rewrite pushMetrics_unfold. now rewrite Hb. Qed.

(** X9: a [pushMetrics] that follows another with no [Collect] in between
    finds the buffer empty and does nothing. *)
Theorem pushMetrics_twice (w : World) :
  pushMetrics (snd (pushMetrics w)) = ([], snd (pushMetrics w)).
Proof.
  apply pushMetrics_on_empty.
  destruct (pushMetrics_result w) as [_ ->]. reflexivity.
Qed.

Lemma samples_of_empty (containers : list SampleContainer) :
  Forall (fun container => GetSamples container = []) containers ->
  samples_of containers = [].
Proof.
  induction 1 as [|c cs Hc _ IH]; [reflexivity|].
  cbn [samples_of flat_map]. fold (samples_of cs). now rewrite Hc, IH.
Qed.

Lemma samples_of_app (cs1 cs2 : list SampleContainer) :
  samples_of (cs1 ++ cs2) = samples_of cs1 ++ samples_of cs2.
Proof. unfold samples_of. apply flat_map_app. Qed.

Lemma samples_of_length (containers : list SampleContainer) :
  length (samples_of containers) =
    list_sum (map (fun container => length (GetSamples container)) containers).
Proof.
  induction containers as [|c cs IH]; [reflexivity|].
  cbn [samples_of flat_map map list_sum]. fold (samples_of cs).
  now rewrite length_app, length_map, IH.
Qed.

(** X10: a [Collect] whose containers hold no sample at all (no container,
    or only empty ones) leaves the world as it found it. *)
Theorem Collect_nothing (containers : list SampleContainer) (w : World) :
  Forall (fun container => GetSamples container = []) containers ->
  Collect containers w = (tt, w).
Proof.
  intros H. rewrite Collect_spec, (samples_of_empty _ H), app_nil_r.
  now rewrite (with_buffer_same w (buffer (col w))).
Qed.

(** X11: [Collect] appends one data point per sample, container by
    container and sample by sample, after what the buffer holds; the buffer
    grows by the number of samples; [Collect] touches nothing else of the
    collector and adds no event: no client call, no log entry. *)
Theorem Collect_appends_in_order (containers : list SampleContainer) (w : World) :
  let w' := snd (Collect containers w) in
  buffer (col w') =
    buffer (col w) ++
      flat_map (fun container => map generateDataPoint (GetSamples container))
        containers /\
  length (buffer (col w')) =
    (length (buffer (col w)) +
       list_sum (map (fun container => length (GetSamples container))
                   containers))%nat /\
  trace w' = trace w /\
  Client (col w') = Client (col w) /\
  startTime (col w') = startTime (col w) /\
  same_settings (col w) (col w').
Proof.
  cbv zeta. rewrite Collect_spec. cbn [snd with_buffer col buffer trace].
  split; [reflexivity|]. split.
  - now rewrite length_app, samples_of_length.
  - now repeat split.
Qed.

(** X12: two [Collect]s in a row amount to one [Collect] of the two lists
    of containers put together. *)
Theorem Collect_twice (cs1 cs2 : list SampleContainer) (w : World) :
  (Collect cs1 ;;; Collect cs2) w = Collect (cs1 ++ cs2) w.
Proof.
  unfold bind. rewrite !Collect_spec, samples_of_app.
  cbn [with_buffer col buffer trace]. now rewrite app_assoc.
Qed.

(** *** What no operation changes *)

Lemma same_settings_refl (c : Collector) : same_settings c c.
Proof. now repeat split. Qed.

Lemma same_settings_trans (c1 c2 c3 : Collector) :
  same_settings c1 c2 -> same_settings c2 c3 -> same_settings c1 c3.
Proof.
  intros (H1 & H2 & H3) (H4 & H5 & H6).
  repeat split; congruence.
Qed.

Lemma Init_col (w : World) :
  same_settings (col w) (col (snd (Init w))) /\
  buffer (col (snd (Init w))) = buffer (col w) /\
  startTime (col (snd (Init w))) = startTime (col w).
Proof.
  destruct (String.eqb_spec (Addr (Config_ (col w))) "") as [Ha|Ha].
  - rewrite (Init_empty_address w Ha). now repeat split.
  - destruct (NewBuffered (Addr (Config_ (col w))) (BufferSize (Config_ (col w))))
      as [cl|e] eqn:Hnew.
    + rewrite (Init_client_built w cl Ha Hnew). now repeat split.
    + rewrite (Init_client_failed w e Ha Hnew). now repeat split.
Qed.

(** What the loop of [Run] leaves alone: everything but the buffer. *)
Lemma Run_loop_col (s : list sched) (w : World) :
  col (snd (Run_loop s w)) =
    col (with_buffer (buffer (col (snd (Run_loop s w)))) w).
Proof.
  revert w. induction s as [|ev s IH]; intros w.
  - cbn. now destruct w as [[] ?].
  - destruct ev as [containers|[|]]; cbn [Run_loop]; unfold bind.
    + rewrite Collect_spec. rewrite IH. reflexivity.
    + destruct (pushMetrics_spec w) as (evs & -> & _). rewrite IH. reflexivity.
    + destruct (pushMetrics_spec w) as (evs & -> & _).
      rewrite late_collects_spec, finish_unfold. reflexivity.
Qed.

Lemma Run_col (now : Z) (s : list sched) (w : World) :
  same_settings (col w) (col (snd (Run now s w))) /\
  Client (col (snd (Run now s w))) = Client (col w).
Proof.
  destruct (Z.leb_spec (PushInterval (Config_ (col w))) 0) as [Hle|Hlt].
  - unfold Run. step_monad. apply Z.leb_le in Hle. rewrite Hle.
    now repeat split.
  - rewrite (Run_unfold now s w Hlt), Run_loop_col. now repeat split.
Qed.

(** X13: no operation changes the configuration, the type name or the tag
    filter of the collector: [Init], [Collect], [pushMetrics], [finish] and
    [Run] leave them as they are, so [Link] answers the same address before
    and after any of them. *)
Theorem settings_never_change (now : Z) (containers : list SampleContainer)
    (s : list sched) (w : World) :
  same_settings (col w) (col (snd (Init w))) /\
  same_settings (col w) (col (snd (Collect containers w))) /\
  same_settings (col w) (col (snd (pushMetrics w))) /\
  same_settings (col w) (col (snd (finish w))) /\
  same_settings (col w) (col (snd (Run now s w))) /\
  fst (Link (snd (Init w))) = fst (Link w) /\
  fst (Link (snd (Run now s w))) = fst (Link w) /\
  Link w = (Addr (Config_ (col w)), w).
Proof.
  pose proof (Init_col w) as [HI _].
  pose proof (Run_col now s w) as [HR _].
  split; [exact HI|]. split; [now rewrite Collect_spec|].
  split; [destruct (pushMetrics_result w) as [_ ->]; now repeat split|].
  split; [now rewrite finish_unfold|]. split; [exact HR|].
  unfold Link, bind, get_col, ret. cbn [fst].
  destruct HI as [<- _], HR as [<- _]. now repeat split.
Qed.

(** *** [Init], continued *)

(** X14: [Init] returns nil exactly when the address is not empty and
    [NewBuffered] builds a client; it writes one error-level log entry when
    it returns an error and none when it returns nil, and it never calls a
    method of the client. *)
Theorem Init_succeeds_iff (w : World) :
  (fst (Init w) = None <->
   Addr (Config_ (col w)) <> "" /\
   exists cl,
     NewBuffered (Addr (Config_ (col w))) (BufferSize (Config_ (col w))) =
       inl cl) /\
  error_logs (appended w (snd (Init w))) =
    match fst (Init w) with None => 0%nat | Some _ => 1%nat end /\
  client_calls (appended w (snd (Init w))) = [].
Proof.
  destruct (String.eqb_spec (Addr (Config_ (col w))) "") as [Ha|Ha].
  - rewrite (Init_empty_address w Ha). cbn [fst snd]. rewrite appended_app.
    split; [|now split]. split; [discriminate|]. now intros [Hne _].
  - destruct (NewBuffered (Addr (Config_ (col w))) (BufferSize (Config_ (col w))))
      as [cl|e] eqn:Hnew.
    + rewrite (Init_client_built w cl Ha Hnew). cbn [fst snd].
      rewrite appended_app. split; [|now split].
      split; [intros _; split; [exact Ha|now exists cl]|reflexivity].
    + rewrite (Init_client_failed w e Ha Hnew). cbn [fst snd].
      rewrite appended_app. split; [|now split].
      split; [discriminate|]. now intros [_ [cl Hcl]].
Qed.

(** *** [Run], continued *)

(** X15: with a positive push interval [Run] returns exactly when the
    cancellation is in its schedule and otherwise stays in its loop; it
    closes the client once when it returns and never before. *)
Theorem Run_returns_iff_cancelled (now : Z) (s : list sched) (w : World) :
  0 < PushInterval (Config_ (col w)) ->
  fst (Run now s w) = (if cancelled s then Returned else Waiting) /\
  closes (client_calls (appended w (snd (Run now s w)))) =
    (if cancelled s then 1%nat else 0%nat).
Proof.
  intros Hp. rewrite (Run_unfold now s w Hp).
  match goal with
  | |- context [Run_loop s ?W] =>
      destruct (Run_loop_closes s W) as (evs & Ht & Hc);
      pose proof (Run_loop_outcome_cancelled s W) as Ho
  end.
  rewrite Ho in Hc |- *. split; [reflexivity|].
  cbn [trace] in Ht. rewrite <- app_assoc in Ht.
  rewrite (appended_eq _ _ _ Ht).
  change (closes (client_calls evs) = if cancelled s then 1%nat else 0%nat).
  rewrite Hc. now destruct (cancelled s).
Qed.

Lemma producer_samples_app (s1 s2 : list sched) :
  producer_samples (s1 ++ s2) = producer_samples s1 ++ producer_samples s2.
Proof.
  induction s1 as [|ev s1 IH]; [reflexivity|].
  destruct ev as [containers|k]; cbn [app producer_samples].
  - now rewrite IH, app_assoc.
  - exact IH.
Qed.

(** Once the cancellation has been served the loop does nothing more: of
    what the schedule still holds only the producers' samples matter, and
    they go to the buffer. *)
Lemma Run_loop_after_cancellation (s1 s2 : list sched) (w : World) :
  cancelled s1 = true ->
  Run_loop (s1 ++ s2) w =
    (Returned,
     with_buffer
       (buffer (col (snd (Run_loop s1 w))) ++ producer_samples s2)
       (snd (Run_loop s1 w))).
Proof.
  revert w. induction s1 as [|ev s1 IH]; intros w Hc; [discriminate|].
  destruct ev as [containers|[|]]; cbn [app Run_loop cancelled] in *;
    unfold bind.
  - destruct (Collect containers w) as [[] w1]. now apply IH.
  - destruct (pushMetrics w) as [batch w1]. now apply IH.
  - destruct (pushMetrics w) as [batch w1].
    rewrite !late_collects_spec, !finish_unfold, producer_samples_app.
    cbn [with_buffer col buffer trace snd]. unfold ret.
    now rewrite app_assoc.
Qed.

(** X16: once [Run] has served the cancellation nothing that follows makes
    it act again: ticks and further cancellations scheduled after it are
    never served, so the trace (client calls and log entries) is that of
    the run up to the cancellation, and the only effect of what follows is
    that the samples producers still hand to [Collect] are added to the
    buffer, where they stay unsent. *)
Theorem Run_stops_at_cancellation (now : Z) (s1 s2 : list sched) (w : World) :
  0 < PushInterval (Config_ (col w)) ->
  cancelled s1 = true ->
  Run now (s1 ++ s2) w =
    (Returned,
     with_buffer
       (buffer (col (snd (Run now s1 w))) ++ producer_samples s2)
       (snd (Run now s1 w))).
Proof.
  intros Hp Hc. rewrite !(Run_unfold now _ w Hp).
  now apply Run_loop_after_cancellation.
Qed.

Lemma emissions_app (c : Collector) (d1 d2 : list Sample) :
  emissions c (d1 ++ d2) = emissions c d1 ++ emissions c d2.
Proof. unfold emissions. apply omap_app. Qed.

Lemma filter_emissions (c : Collector) (data : list Sample) :
  List.filter is_emission (emissions c data) = emissions c data.
Proof.
  induction data as [|entry data IH]; [reflexivity|].
  unfold emissions. cbn [omap list_omap].
  destruct (emission c entry) as [cl|] eqn:E; [|exact IH].
  apply emission_is_emission in E.
  change (List.filter is_emission (cl :: emissions c data) =
          cl :: emissions c data).
  cbn [List.filter]. now rewrite E, IH.
Qed.

Lemma filter_pushed_calls (c : Collector) (b : list Sample) :
  List.filter is_emission
    (match b with
     | [] => []
     | _ :: _ => emissions c b ++ [statsd.Flush]
     end) = emissions c b.
Proof.
  destruct b as [|x b]; [reflexivity|].
  rewrite List.filter_app, filter_emissions. cbn [List.filter is_emission].
  apply app_nil_r.
Qed.

(** Every sample handed to the loop before the cancellation's swap is
    dispatched or still buffered; after the cancellation the buffer holds
    what was collected after that swap. *)
Lemma Run_loop_conserves (s : list sched) (w : World) :
  exists evs,
    trace (snd (Run_loop s w)) = trace w ++ evs /\
    (cancelled s = false ->
     List.filter is_emission (client_calls evs) ++
       emissions (col w) (buffer (col (snd (Run_loop s w)))) =
       emissions (col w) (buffer (col w) ++ ingested_until_done s)) /\
    (cancelled s = true ->
     List.filter is_emission (client_calls evs) =
       emissions (col w) (buffer (col w) ++ ingested_until_done s) /\
     buffer (col (snd (Run_loop s w))) = collected_after_done s).
Proof.
  revert w. induction s as [|ev s IH]; intros w.
  - exists []. cbn. rewrite !app_nil_r. split; [reflexivity|].
    split; [reflexivity|discriminate].
  - destruct ev as [containers|[|]];
      cbn [Run_loop cancelled ingested_until_done collected_after_done];
      unfold bind.
    + rewrite Collect_spec.
      destruct (IH (with_buffer (buffer (col w) ++ samples_of containers) w))
        as (evs & Ht & Hn & Hc).
      exists evs. split; [exact Ht|].
      assert (Hem : forall d,
        emissions
          (col (with_buffer (buffer (col w) ++ samples_of containers) w)) d =
        emissions (col w) d) by (intros; now apply emissions_FilterTags).
      split.
      * intros Hcan. specialize (Hn Hcan). rewrite !Hem in Hn.
        cbn [with_buffer col buffer] in Hn. now rewrite Hn, app_assoc.
      * intros Hcan. destruct (Hc Hcan) as [He Hb]. rewrite !Hem in He.
        cbn [with_buffer col buffer] in He. split; [|exact Hb].
        now rewrite He, app_assoc.
    + destruct (pushMetrics_spec w) as (evs1 & -> & Hcalls).
      destruct (IH {| col := col (with_buffer [] w); trace := trace w ++ evs1 |})
        as (evs2 & Ht & Hn & Hc).
      assert (Hem : forall d,
        emissions (col (with_buffer [] w)) d = emissions (col w) d)
        by (intros; now apply emissions_FilterTags).
      cbn [col] in Hn, Hc.
      cbn [snd with_buffer col buffer trace] in *.
      exists (evs1 ++ evs2). split; [now rewrite Ht, app_assoc|].
      rewrite client_calls_app, List.filter_app, Hcalls, filter_pushed_calls.
      split.
      * intros Hcan. specialize (Hn Hcan). rewrite !Hem in Hn.
        rewrite <- app_assoc, Hn. cbn [app]. now rewrite emissions_app.
      * intros Hcan. destruct (Hc Hcan) as [He Hb]. rewrite !Hem in He.
        split; [|exact Hb]. rewrite He. cbn [app]. now rewrite emissions_app.
    + destruct (Run_loop_done s w) as (evs & Hd & Hcalls).
      cbn [Run_loop] in Hd. unfold bind in Hd. rewrite Hd.
      cbn [snd with_buffer col buffer trace].
      exists evs. split; [reflexivity|]. split; [discriminate|].
      intros _. split; [|reflexivity].
      rewrite Hcalls, List.filter_app, filter_pushed_calls.
      cbn [List.filter is_emission]. now rewrite !app_nil_r.
Qed.

(** X17: with a positive push interval [Run] loses no sample that reaches
    the buffer before the swap of its last [pushMetrics].  While [Run]
    waits, the emissions made so far followed by those of the samples still
    in the buffer are the emissions of the samples buffered at the start
    followed by those of the samples collected since, in order.  Once [Run]
    has returned, the emissions made are those of the samples buffered at
    the start and of the samples collected before the cancellation's swap,
    in order; the samples collected after that swap are in the buffer and
    were not sent. *)
Theorem Run_dispatches_everything (now : Z) (s : list sched) (w : World) :
  0 < PushInterval (Config_ (col w)) ->
  let w' := snd (Run now s w) in
  (cancelled s = false ->
   List.filter is_emission (client_calls (appended w w')) ++
     emissions (col w) (buffer (col w')) =
     emissions (col w) (buffer (col w) ++ ingested_until_done s)) /\
  (cancelled s = true ->
   List.filter is_emission (client_calls (appended w w')) =
     emissions (col w) (buffer (col w) ++ ingested_until_done s) /\
   buffer (col w') = collected_after_done s).
Proof.
  intros Hp. cbv zeta. rewrite (Run_unfold now s w Hp).
  match goal with
  | |- context [Run_loop s ?W] =>
      destruct (Run_loop_conserves s W) as (evs & Ht & Hn & Hc)
  end.
  cbn [col trace buffer] in Ht, Hn, Hc.
  match type of Hn with
  | context [emissions ?c _] =>
      assert (Hem : forall d, emissions c d = emissions (col w) d)
        by (intros; now apply emissions_FilterTags)
  end.
  rewrite <- app_assoc in Ht. rewrite (appended_eq _ _ _ Ht).
  change (client_calls
            ([LogEntry DebugLevel [] (Type' (col w) +:+ ": Running!")] ++ evs))
    with (client_calls evs).
  split.
  - intros Hcan. specialize (Hn Hcan). now rewrite !Hem in Hn.
  - intros Hcan. destruct (Hc Hcan) as [He Hb]. rewrite !Hem in He.
    now split.
Qed.

(** X18: with a positive push interval [Run] records [now] as the start
    time and keeps it; it never replaces or clears the client field, not
    even after it has closed the client. *)
Theorem Run_records_start_time (now : Z) (s : list sched) (w : World) :
  0 < PushInterval (Config_ (col w)) ->
  startTime (col (snd (Run now s w))) = now /\
  Client (col (snd (Run now s w))) = Client (col w).
Proof.
  intros Hp. rewrite (Run_unfold now s w Hp), Run_loop_col. now split.
Qed.

End more_facts.

(** ** The further properties on concrete inputs *)

Lemma dispatch_trend_gauge_raw_value_witness :
  client_calls
    (appended world0
       (snd (dispatch (ext := env reply_ok) sample_trend world0))) =
    [statsd.TimeInMilliseconds "http_req_duration" 12.5%float [] 1%float] /\
  client_calls
    (appended world0
       (snd (dispatch (ext := env reply_ok) sample_gauge world0))) =
    [statsd.Gauge "vus" 0.25%float [] 1%float].
Proof.
  split.
  - apply (dispatch_trend_gauge_raw_value (ext := env reply_ok)
             sample_trend world0). left. reflexivity.
  - apply (dispatch_trend_gauge_raw_value (ext := env reply_ok)
             sample_gauge world0). right. reflexivity.
Defined.

Lemma checkToString_inj_witness :
  "checkA" = "checkA" /\
  PrimFloat.eqb 0%float 0%float = PrimFloat.eqb (-0)%float 0%float.
Proof.
  apply (checkToString_inj "checkA" "checkA" 0%float (-0)%float).
  reflexivity.
Defined.

Lemma dispatch_failure_is_warned_witness :
  dispatch (ext := env reply_fail) sample_check_pass world0 =
    (tt,
     mkWorld collector0
       [ClientCall (statsd.Count "check.checkA.pass" 1 [] 1%float)
          (Some "write: connection refused");
        LogEntry WarnLevel []
          "Error while sending metric checks: write: connection refused"]).
Proof.
  destruct (dispatch_failure_is_warned (ext := env reply_fail)
              sample_check_pass world0
              (or_intror (or_intror (or_intror eq_refl))))
    as (cl & Hcl & Hd).
  vm_compute in Hcl. injection Hcl as <-. exact Hd.
Defined.

Lemma int64_rounds_towards_zero_witness :
  (Z.abs (int64 (ext := env reply_ok) (-2.75)%float) * 2 ^ 51 <=
     6192449487634432 <
     (Z.abs (int64 (ext := env reply_ok) (-2.75)%float) + 1) * 2 ^ 51) /\
  int64 (ext := env reply_ok) (-2.75)%float <= 0.
Proof.
  apply (int64_rounds_towards_zero (ext := env reply_ok) (-2.75)%float true
           6192449487634432%positive 51%positive).
  - reflexivity.
  - vm_compute. discriminate.
Defined.

Lemma pushMetrics_drains_and_drops_witness :
  fst (pushMetrics (ext := env reply_fail) world_pending) =
    [sample_counter; sample_check_pass] /\
  buffer (col (snd (pushMetrics (ext := env reply_fail) world_pending))) = [].
Proof.
  destruct (pushMetrics_drains_and_drops (ext := env reply_fail) world_pending
              ltac:(discriminate)) as (evs & r & Hp & _).
  rewrite Hp. split; reflexivity.
Defined.

Lemma Collect_nothing_witness :
  Collect (ext := env reply_ok) [[]; []] world0 = (tt, world0).
Proof.
  apply (Collect_nothing (ext := env reply_ok) [[]; []] world0).
  repeat constructor.
Defined.

Lemma Run_returns_iff_cancelled_witness :
  fst (Run (ext := env reply_ok) 5
         [Producer (ext := env reply_ok) [[sample_counter_int]]; Wake Tick]
         world0) = Waiting /\
  closes
    (client_calls
       (appended world0
          (snd (Run (ext := env reply_ok) 5
                  [Producer (ext := env reply_ok) [[sample_counter_int]];
                   Wake Tick] world0)))) = 0%nat.
Proof.
  apply (Run_returns_iff_cancelled (ext := env reply_ok) 5
           [Producer (ext := env reply_ok) [[sample_counter_int]]; Wake Tick]
           world0).
  reflexivity.
Defined.

Lemma Run_stops_at_cancellation_witness :
  Run (ext := env reply_ok) 5
    ((sched_until_cancel ++ [Wake Done]) ++ sched_after_cancel) world0 =
    (Returned,
     with_buffer [sample_trend]
       (snd (Run (ext := env reply_ok) 5 (sched_until_cancel ++ [Wake Done])
               world0))).
Proof.
  apply (Run_stops_at_cancellation (ext := env reply_ok) 5
           (sched_until_cancel ++ [Wake Done]) sched_after_cancel world0);
    reflexivity.
Defined.

Lemma Run_dispatches_everything_witness :
  List.filter is_emission
    (client_calls
       (appended world0
          (snd (Run (ext := env reply_fail) 5
                  [Producer (ext := env reply_fail) [[sample_counter_int]];
                   Wake Tick;
                   Producer (ext := env reply_fail) [[sample_check_pass]];
                   Wake Done;
                   Producer (ext := env reply_fail) [[sample_trend]]]
                  world0)))) =
    [statsd.Count "iterations" 3 [] 1%float;
     statsd.Count "check.checkA.pass" 1 [] 1%float] /\
  buffer
    (col (snd (Run (ext := env reply_fail) 5
                 [Producer (ext := env reply_fail) [[sample_counter_int]];
                  Wake Tick;
                  Producer (ext := env reply_fail) [[sample_check_pass]];
                  Wake Done;
                  Producer (ext := env reply_fail) [[sample_trend]]]
                 world0))) = [sample_trend].
Proof.
  destruct (Run_dispatches_everything (ext := env reply_fail) 5
              [Producer (ext := env reply_fail) [[sample_counter_int]];
               Wake Tick;
               Producer (ext := env reply_fail) [[sample_check_pass]];
               Wake Done;
               Producer (ext := env reply_fail) [[sample_trend]]]
              world0 eq_refl) as [_ H].
  exact (H eq_refl).
Defined.

Lemma Run_records_start_time_witness :
  startTime
    (col (snd (Run (ext := env reply_ok) 5 [Wake Tick; Wake Done] world0))) = 5.
Proof.
  apply (Run_records_start_time (ext := env reply_ok) 5
           [Wake Tick; Wake Done] world0).
  reflexivity.
Defined.
